(** * AiContribFHE: the reveal protocol of the contribution contract

    A shallow embedding of the Solidity contract [AiContribFHE]: its storage,
    its seven external functions and the public getter of [updateCount],
    written as computations over the contract storage that either return or
    revert.  The FHE library the contract imports and the ABI decoder are not
    part of the repository; they enter as an interface ([External]) over which
    every general statement is quantified, and what the statements need of
    the library is a hypothesis of theirs.  [Host] refines the interface with
    the refusals of the library (permissions on handles, which the contract
    never grants itself), and [Acl] is the contract over it.  Concrete
    instances run the contract on explicit inputs: [TestLib] and [OddLib]
    perform every operation, [AclLib] refuses what the library refuses. *)

From stdpp Require Import gmap strings list.
From Stdlib Require Import ZArith Lia.
From Stdlib.Strings Require Import Byte.

Local Open Scope Z_scope.

(** ** Solidity value types *)

Abbreviation uint256 := Z (only parsing).
Abbreviation uint32 := Z (only parsing).
(** [euint32] is a user-defined value type over [bytes32]: a ciphertext handle. *)
Abbreviation euint32 := Z (only parsing).
Abbreviation bytes32 := Z (only parsing).
Abbreviation bytes := (list byte) (only parsing).

Definition MAX_UINT256 : Z := 2 ^ 256 - 1.

(** The two callback selectors handed to [FHE.requestDecryption]. *)
Inductive Selector :=
| decryptContribution_selector
| decryptTotalContribution_selector.

(** ** Structs *)

Module EncryptedModelUpdate.
Record t := mk {
  id : uint256;
  encryptedWeights : euint32;
  encryptedMetrics : euint32;
  timestamp : uint256
}.
(** The value an unwritten mapping slot reads as. *)
Definition zero : t := mk 0 0 0 0.
End EncryptedModelUpdate.

Module DecryptedContribution.
Record t := mk {
  participantId : uint256;
  shapleyValue : uint32;
  isRevealed : bool
}.
Definition zero : t := mk 0 0 false.
Definition set_shapleyValue (v : uint32) (c : t) : t :=
  mk (participantId c) v (isRevealed c).
Definition set_isRevealed (b : bool) (c : t) : t :=
  mk (participantId c) (shapleyValue c) b.
End DecryptedContribution.

(** ** Events and errors *)

Inductive Event :=
| UpdateSubmitted (id : uint256) (timestamp : uint256)
| DecryptionRequested (id : uint256)
| ContributionDecrypted (id : uint256).

(** Why a call reverted. *)
Inductive Error :=
| RequireFailed (msg : string)   (* require(cond, msg) with cond false *)
| InvalidSignatures              (* FHE.checkSignatures reverted *)
| DecodeFailed                   (* abi.decode reverted *)
| Panic (code : Z)               (* 0x11 arithmetic overflow, 0x32 index out of bounds *)
| RequestRejected                (* FHE.requestDecryption reverted *)
| LibraryRefused.                (* FHE.asEuint32 or FHE.add reverted *)

(** The names the specification gives to the failures. *)
Definition AlreadyRevealed : Error := RequireFailed "Already decrypted".
Definition UnknownRequest : Error := RequireFailed "Invalid request".
Definition NotFound : Error := RequireFailed "Update not found".
Definition VerificationFailed : Error := InvalidSignatures.

(** ** The imported library *)

(** What the contract uses of [@fhevm/solidity/lib/FHE.sol] and of the ABI
    decoder.  The library keeps its own storage ([OracleState]), from which
    request identifiers are drawn and against which proofs are checked. *)
Class External := {
  OracleState : Type;
  FHE_isInitialized : euint32 -> bool;
  (** The handle [FHE.asEuint32] returns when the library performs it. *)
  FHE_asEuint32 : uint32 -> euint32;
  (** The handle [FHE.add] returns when the library performs it; the calls
      the library refuses are those of [Host]. *)
  FHE_add : euint32 -> euint32 -> euint32;
  FHE_toBytes32 : euint32 -> bytes32;
  (** [None]: the library call reverts. *)
  FHE_requestDecryption :
    list bytes32 -> Selector -> OracleState -> option (uint256 * OracleState);
  (** [false]: the library call reverts. *)
  FHE_checkSignatures : uint256 -> bytes -> bytes -> OracleState -> bool;
  (** [abi.decode(cleartexts, (uint32[]))]; [None]: the decoder reverts. *)
  abi_decode_uint32_array : bytes -> option (list uint32);
  (** [abi.decode(cleartexts, (uint32))]. *)
  abi_decode_uint32 : bytes -> option uint32
}.

(** ** Storage and the computations over it *)

Section Contract.
Context `{Ext : External}.

Record State := mkState {
  updateCount : uint256;
  encryptedUpdates : gmap Z EncryptedModelUpdate.t;
  decryptedContributions : gmap Z DecryptedContribution.t;
  encryptedContributionTotals : gmap Z Z;
  participantList : list Z;
  requestToUpdateId : gmap Z Z;
  (** storage of the FHE library, which lives in the same account *)
  oracle : OracleState;
  (** the log of emitted events, oldest first *)
  events : list Event
}.

(** A freshly deployed contract. *)
Definition init_state (o : OracleState) : State :=
  mkState 0 ∅ ∅ ∅ [] ∅ o [].

(** Reading a mapping: an absent key reads as the zero value. *)
Definition encryptedUpdates_at (s : State) (k : uint256) : EncryptedModelUpdate.t :=
  default EncryptedModelUpdate.zero (encryptedUpdates s !! k).
Definition decryptedContributions_at (s : State) (k : uint256) : DecryptedContribution.t :=
  default DecryptedContribution.zero (decryptedContributions s !! k).
Definition encryptedContributionTotals_at (s : State) (k : uint256) : euint32 :=
  default 0 (encryptedContributionTotals s !! k).
Definition requestToUpdateId_at (s : State) (k : uint256) : uint256 :=
  default 0 (requestToUpdateId s !! k).

Definition set_updateCount (v : uint256) (s : State) : State :=
  mkState v (encryptedUpdates s) (decryptedContributions s)
    (encryptedContributionTotals s) (participantList s) (requestToUpdateId s)
    (oracle s) (events s).
Definition set_encryptedUpdates (k : uint256) (v : EncryptedModelUpdate.t) (s : State) : State :=
  mkState (updateCount s) (<[k:=v]> (encryptedUpdates s)) (decryptedContributions s)
    (encryptedContributionTotals s) (participantList s) (requestToUpdateId s)
    (oracle s) (events s).
Definition set_decryptedContributions (k : uint256) (v : DecryptedContribution.t) (s : State) : State :=
  mkState (updateCount s) (encryptedUpdates s) (<[k:=v]> (decryptedContributions s))
    (encryptedContributionTotals s) (participantList s) (requestToUpdateId s)
    (oracle s) (events s).
Definition set_encryptedContributionTotals (k : uint256) (v : euint32) (s : State) : State :=
  mkState (updateCount s) (encryptedUpdates s) (decryptedContributions s)
    (<[k:=v]> (encryptedContributionTotals s)) (participantList s) (requestToUpdateId s)
    (oracle s) (events s).
Definition push_participantList (v : uint256) (s : State) : State :=
  mkState (updateCount s) (encryptedUpdates s) (decryptedContributions s)
    (encryptedContributionTotals s) (participantList s ++ [v]) (requestToUpdateId s)
    (oracle s) (events s).
Definition set_requestToUpdateId (k v : uint256) (s : State) : State :=
  mkState (updateCount s) (encryptedUpdates s) (decryptedContributions s)
    (encryptedContributionTotals s) (participantList s) (<[k:=v]> (requestToUpdateId s))
    (oracle s) (events s).
Definition set_oracle (o : OracleState) (s : State) : State :=
  mkState (updateCount s) (encryptedUpdates s) (decryptedContributions s)
    (encryptedContributionTotals s) (participantList s) (requestToUpdateId s)
    o (events s).
Definition emit_event (e : Event) (s : State) : State :=
  mkState (updateCount s) (encryptedUpdates s) (decryptedContributions s)
    (encryptedContributionTotals s) (participantList s) (requestToUpdateId s)
    (oracle s) (events s ++ [e]).

(** The outcome of running a function body: it returns [a] in storage [s], or
    it reverts with [e]; [Revert] keeps the storage as it stood at the point
    of the revert, which the transaction then throws away ([transact]). *)
Inductive Res (A : Type) :=
| Ok (a : A) (s : State)
| Revert (e : Error) (s : State).
Arguments Ok {A} a s.
Arguments Revert {A} e s.

Definition M (A : Type) : Type := State -> Res A.

Definition ret {A} (a : A) : M A := fun s => Ok a s.
Definition bind {A B} (m : M A) (k : A -> M B) : M B :=
  fun s => match m s with
           | Ok a s' => k a s'
           | Revert e s' => Revert e s'
           end.
Definition revert {A} (e : Error) : M A := fun s => Revert e s.
Definition get : M State := fun s => Ok s s.
Definition modify (f : State -> State) : M unit := fun s => Ok tt (f s).
Definition require (cond : bool) (msg : string) : M unit :=
  if cond then ret tt else revert (RequireFailed msg).

#[local] Instance M_ret : MRet M := @ret.
#[local] Instance M_bind : MBind M := fun A B k m => bind m k.

(** Checked [uint256] addition (Solidity 0.8). *)
Definition checked_add (a b : uint256) : M uint256 :=
  if a + b <=? MAX_UINT256 then ret (a + b) else revert (Panic 17).

(** [arr[i]] on a memory array. *)
Definition index (arr : list uint32) (i : nat) : M uint32 :=
  match arr !! i with
  | Some v => ret v
  | None => revert (Panic 50)
  end.

(** The library calls, lifted to computations. *)
Definition requestDecryption (ciphertexts : list bytes32) (sel : Selector) : M uint256 :=
  fun s => match FHE_requestDecryption ciphertexts sel (oracle s) with
           | Some (reqId, o') => Ok reqId (set_oracle o' s)
           | None => Revert RequestRejected s
           end.
Definition checkSignatures (requestId : uint256) (cleartexts proof : bytes) : M unit :=
  fun s => if FHE_checkSignatures requestId cleartexts proof (oracle s)
           then Ok tt s else Revert InvalidSignatures s.
Definition decode_uint32_array (cleartexts : bytes) : M (list uint32) :=
  match abi_decode_uint32_array cleartexts with
  | Some l => ret l
  | None => revert DecodeFailed
  end.
Definition decode_uint32 (cleartexts : bytes) : M uint32 :=
  match abi_decode_uint32 cleartexts with
  | Some v => ret v
  | None => revert DecodeFailed
  end.

(** ** The contract's functions *)

(** [submitEncryptedUpdate]; [block_timestamp] is [block.timestamp].  The
    function declares no return value. *)
Definition submitEncryptedUpdate (encryptedWeights encryptedMetrics : euint32)
    (block_timestamp : uint256) : M unit :=
  s ← get;
  n ← checked_add (updateCount s) 1;
  modify (set_updateCount n);;
  s ← get;
  let newId := updateCount s in
  modify (set_encryptedUpdates newId
    (EncryptedModelUpdate.mk newId encryptedWeights encryptedMetrics block_timestamp));;
  modify (set_decryptedContributions newId
    (DecryptedContribution.mk newId 0 false));;
  modify (emit_event (UpdateSubmitted newId block_timestamp)).

(** [requestUpdateDecryption]; the modifier [onlyParticipant] has an empty body. *)
Definition requestUpdateDecryption (updateId : uint256) : M unit :=
  s ← get;
  let update := encryptedUpdates_at s updateId in
  require (negb (DecryptedContribution.isRevealed (decryptedContributions_at s updateId)))
    "Already decrypted";;
  let ciphertexts :=
    [FHE_toBytes32 (EncryptedModelUpdate.encryptedWeights update);
     FHE_toBytes32 (EncryptedModelUpdate.encryptedMetrics update)] in
  reqId ← requestDecryption ciphertexts decryptContribution_selector;
  modify (set_requestToUpdateId reqId updateId);;
  modify (emit_event (DecryptionRequested updateId)).

(** [decryptContribution], the callback of the individual lane. *)
Definition decryptContribution (requestId : uint256) (cleartexts proof : bytes) : M unit :=
  s ← get;
  let updateId := requestToUpdateId_at s requestId in
  require (negb (updateId =? 0)) "Invalid request";;
  checkSignatures requestId cleartexts proof;;
  results ← decode_uint32_array cleartexts;
  r0 ← index results 0;
  s ← get;
  modify (set_decryptedContributions updateId
    (DecryptedContribution.set_shapleyValue r0 (decryptedContributions_at s updateId)));;
  s ← get;
  modify (set_decryptedContributions updateId
    (DecryptedContribution.set_isRevealed true (decryptedContributions_at s updateId)));;
  s ← get;
  (if negb (FHE_isInitialized (encryptedContributionTotals_at s updateId))
   then modify (set_encryptedContributionTotals updateId (FHE_asEuint32 0));;
        modify (push_participantList updateId)
   else ret tt);;
  s ← get;
  modify (set_encryptedContributionTotals updateId
    (FHE_add (encryptedContributionTotals_at s updateId) (FHE_asEuint32 r0)));;
  modify (emit_event (ContributionDecrypted updateId)).

(** [getDecryptedContribution] (view). *)
Definition getDecryptedContribution (updateId : uint256) : M (uint256 * uint32 * bool) :=
  s ← get;
  let c := decryptedContributions_at s updateId in
  ret (DecryptedContribution.participantId c,
       DecryptedContribution.shapleyValue c,
       DecryptedContribution.isRevealed c).

(** [getEncryptedContributionTotal] (view). *)
Definition getEncryptedContributionTotal (updateId : uint256) : M euint32 :=
  s ← get;
  ret (encryptedContributionTotals_at s updateId).

(** [requestContributionTotalDecryption]. *)
Definition requestContributionTotalDecryption (updateId : uint256) : M unit :=
  s ← get;
  let total := encryptedContributionTotals_at s updateId in
  require (FHE_isInitialized total) "Update not found";;
  let ciphertexts := [FHE_toBytes32 total] in
  reqId ← requestDecryption ciphertexts decryptTotalContribution_selector;
  modify (set_requestToUpdateId reqId updateId).

(** [decryptTotalContribution], the callback of the total lane: [updateId] is
    read and the total is decoded, and neither is used. *)
Definition decryptTotalContribution (requestId : uint256) (cleartexts proof : bytes) : M unit :=
  s ← get;
  let updateId := requestToUpdateId_at s requestId in
  checkSignatures requestId cleartexts proof;;
  totalValue ← decode_uint32 cleartexts;
  ret tt.

(** The storage [decryptContribution] leaves behind once every check has
    passed, for the target [updateId] and the first decoded element [r0]
    (see [decryptContribution_unfold]). *)
Definition accept (updateId : uint256) (r0 : uint32) (s : State) : State :=
  let c := decryptedContributions_at s updateId in
  let t := encryptedContributionTotals_at s updateId in
  let fresh := negb (FHE_isInitialized t) in
  mkState (updateCount s) (encryptedUpdates s)
    (<[updateId := DecryptedContribution.mk (DecryptedContribution.participantId c) r0 true]>
       (decryptedContributions s))
    (<[updateId := FHE_add (if fresh then FHE_asEuint32 0 else t) (FHE_asEuint32 r0)]>
       (encryptedContributionTotals s))
    (if fresh then participantList s ++ [updateId] else participantList s)
    (requestToUpdateId s) (oracle s)
    (events s ++ [ContributionDecrypted updateId]).

(** ** Transactions *)

(** A call of an external function, with its arguments. *)
Inductive Call :=
| call_submitEncryptedUpdate (encryptedWeights encryptedMetrics : euint32)
    (block_timestamp : uint256)
| call_requestUpdateDecryption (updateId : uint256)
| call_decryptContribution (requestId : uint256) (cleartexts proof : bytes)
| call_getDecryptedContribution (updateId : uint256)
| call_getEncryptedContributionTotal (updateId : uint256)
| call_requestContributionTotalDecryption (updateId : uint256)
| call_decryptTotalContribution (requestId : uint256) (cleartexts proof : bytes)
| call_updateCount.

(** What a call hands back to its caller. *)
Inductive ReturnData :=
| ret_nothing
| ret_uint256 (v : uint256)
| ret_euint32 (h : euint32)
| ret_contribution (participantId : uint256) (shapleyValue : uint32) (isRevealed : bool).

Definition dispatch (c : Call) : M ReturnData :=
  match c with
  | call_submitEncryptedUpdate w m ts =>
      submitEncryptedUpdate w m ts;; ret ret_nothing
  | call_requestUpdateDecryption updateId =>
      requestUpdateDecryption updateId;; ret ret_nothing
  | call_decryptContribution requestId cleartexts proof =>
      decryptContribution requestId cleartexts proof;; ret ret_nothing
  | call_getDecryptedContribution updateId =>
      r ← getDecryptedContribution updateId;
      ret (ret_contribution r.1.1 r.1.2 r.2)
  | call_getEncryptedContributionTotal updateId =>
      h ← getEncryptedContributionTotal updateId;
      ret (ret_euint32 h)
  | call_requestContributionTotalDecryption updateId =>
      requestContributionTotalDecryption updateId;; ret ret_nothing
  | call_decryptTotalContribution requestId cleartexts proof =>
      decryptTotalContribution requestId cleartexts proof;; ret ret_nothing
  | call_updateCount =>
      s ← get; ret (ret_uint256 (updateCount s))
  end.

(** A transaction: the storage written by a reverted call is discarded. *)
Definition transact (c : Call) (s : State) : (ReturnData + Error) * State :=
  match dispatch c s with
  | Ok r s' => (inl r, s')
  | Revert e _ => (inr e, s)
  end.

Definition step (s : State) (c : Call) : State := (transact c s).2.

(** The storage after a sequence of transactions. *)
Definition run (calls : list Call) (s : State) : State := foldl step s calls.

(** The states a deployed contract can be in. *)
Definition reachable (s : State) : Prop :=
  exists o calls, s = run calls (init_state o).

(** The identifiers announced by [UpdateSubmitted], in the order of the log. *)
Definition submitted_ids (log : list Event) : list uint256 :=
  omap (fun e => match e with UpdateSubmitted i _ => Some i | _ => None end) log.

(** An [EncryptedModelUpdate] (a [DecryptedContribution]) exists for [k]: the
    slot has been written and carries [k] as its identifier. *)
Definition update_exists (s : State) (k : uint256) : Prop :=
  exists u, encryptedUpdates s !! k = Some u /\ EncryptedModelUpdate.id u = k.
Definition record_exists (s : State) (k : uint256) : Prop :=
  exists c, decryptedContributions s !! k = Some c /\ DecryptedContribution.participantId c = k.

(** The request identifier a call obtains from the library, if it gets as
    far as asking for one. *)
Definition issued_by (c : Call) (s : State) : option uint256 :=
  match c with
  | call_requestUpdateDecryption updateId =>
      if DecryptedContribution.isRevealed (decryptedContributions_at s updateId) then None
      else
        let update := encryptedUpdates_at s updateId in
        fst <$> FHE_requestDecryption
                  [FHE_toBytes32 (EncryptedModelUpdate.encryptedWeights update);
                   FHE_toBytes32 (EncryptedModelUpdate.encryptedMetrics update)]
                  decryptContribution_selector (oracle s)
  | call_requestContributionTotalDecryption updateId =>
      let total := encryptedContributionTotals_at s updateId in
      if FHE_isInitialized total
      then fst <$> FHE_requestDecryption [FHE_toBytes32 total]
                     decryptTotalContribution_selector (oracle s)
      else None
  | _ => None
  end.

(** The request identifiers handed out along a sequence of transactions. *)
Fixpoint issued (calls : list Call) (s : State) : list uint256 :=
  match calls with
  | [] => []
  | c :: calls' => option_list (issued_by c s) ++ issued calls' (step s c)
  end.

(** The identifiers announced by [ContributionDecrypted], in the order of the log. *)
Definition decrypted_ids (log : list Event) : list uint256 :=
  omap (fun e => match e with ContributionDecrypted i => Some i | _ => None end) log.

(** [l] with every element kept at its first occurrence only. *)
Definition first_occurrences (l : list uint256) : list uint256 :=
  foldl (fun acc x => if decide (x ∈ acc) then acc else acc ++ [x]) [] l.

End Contract.

Arguments Ok {Ext A} a s.
Arguments Revert {Ext A} e s.

(** ** The library as a host that can refuse

    [FHE.asEuint32] and [FHE.add] are calls into the host contracts of the
    library: they create a handle, record who may use it, and revert when the
    calling contract holds no permission on an operand.  The permissions a
    call grants on the handles it creates are transient: they last until the
    end of the transaction.  [External] takes the two operations as total
    functions on handles, which is what they are as long as the host performs
    them; [Host] adds their stateful, fallible form and what the end of a
    transaction does to the library storage. *)
Class Host `{Ext : External} := {
  (** [None]: the library call reverts. *)
  host_asEuint32 : uint32 -> OracleState -> option (euint32 * OracleState);
  host_add : euint32 -> euint32 -> OracleState -> option (euint32 * OracleState);
  (** the transient storage of the library is cleared *)
  host_endTransaction : OracleState -> OracleState
}.

Module Acl.
Section Contract.
Context `{H : Host}.
#[local] Existing Instances M_ret M_bind.

Definition asEuint32 (v : uint32) : M euint32 :=
  fun s => match host_asEuint32 v (oracle s) with
           | Some (h, o') => Ok h (set_oracle o' s)
           | None => Revert LibraryRefused s
           end.
Definition add (a b : euint32) : M euint32 :=
  fun s => match host_add a b (oracle s) with
           | Some (h, o') => Ok h (set_oracle o' s)
           | None => Revert LibraryRefused s
           end.

(** [decryptContribution] with the two library calls of lines 94-102 as the
    host performs them.  The arguments of [FHE.add] are evaluated left to
    right: the stored total is read before [FHE.asEuint32(results[0])] runs. *)
Definition decryptContribution (requestId : uint256) (cleartexts proof : bytes) : M unit :=
  s ← get;
  let updateId := requestToUpdateId_at s requestId in
  require (negb (updateId =? 0)) "Invalid request";;
  checkSignatures requestId cleartexts proof;;
  results ← decode_uint32_array cleartexts;
  r0 ← index results 0;
  s ← get;
  modify (set_decryptedContributions updateId
    (DecryptedContribution.set_shapleyValue r0 (decryptedContributions_at s updateId)));;
  s ← get;
  modify (set_decryptedContributions updateId
    (DecryptedContribution.set_isRevealed true (decryptedContributions_at s updateId)));;
  s ← get;
  (if negb (FHE_isInitialized (encryptedContributionTotals_at s updateId))
   then zero ← asEuint32 0;
        modify (set_encryptedContributionTotals updateId zero);;
        modify (push_participantList updateId)
   else ret tt);;
  s ← get;
  let total := encryptedContributionTotals_at s updateId in
  value ← asEuint32 r0;
  sum ← add total value;
  modify (set_encryptedContributionTotals updateId sum);;
  modify (emit_event (ContributionDecrypted updateId)).

(** The two stages of lines 90-104 in closed form (see
    [decryptContribution_host_unfold]): the record of [updateId] written as
    revealed with [r0], and the addition of [r0] into the total [t]. *)
Definition record_revealed (updateId : uint256) (r0 : uint32) (s : State) : State :=
  mkState (updateCount s) (encryptedUpdates s)
    (<[updateId := DecryptedContribution.mk
         (DecryptedContribution.participantId (decryptedContributions_at s updateId)) r0 true]>
       (decryptedContributions s))
    (encryptedContributionTotals s) (participantList s) (requestToUpdateId s)
    (oracle s) (events s).

Definition accumulate (updateId : uint256) (r0 : uint32) (t : euint32) (s : State) : Res unit :=
  match host_asEuint32 r0 (oracle s) with
  | None => Revert LibraryRefused s
  | Some (value, o1) =>
      match host_add t value o1 with
      | None => Revert LibraryRefused (set_oracle o1 s)
      | Some (sum, o2) =>
          Ok tt (emit_event (ContributionDecrypted updateId)
                   (set_encryptedContributionTotals updateId sum (set_oracle o2 s)))
      end
  end.

(** The other functions make no call that [Host] refines. *)
Definition dispatch (c : Call) : M ReturnData :=
  match c with
  | call_decryptContribution requestId cleartexts proof =>
      decryptContribution requestId cleartexts proof;; ret ret_nothing
  | _ => dispatch c
  end.

(** The calls one transaction makes to the contract, one after the other; the
    first revert aborts them all. *)
Fixpoint call_all (tx : list Call) : M (list ReturnData) :=
  match tx with
  | [] => ret []
  | c :: tx' => r ← dispatch c; rs ← call_all tx'; ret (r :: rs)
  end.

(** A transaction: a reverted one leaves the state it started from, a
    successful one ends with the transient storage of the library cleared. *)
Definition transact (tx : list Call) (s : State) : (list ReturnData + Error) * State :=
  match call_all tx s with
  | Ok rs s' => (inl rs, set_oracle (host_endTransaction (oracle s')) s')
  | Revert e _ => (inr e, s)
  end.

Definition step (s : State) (tx : list Call) : State := (transact tx s).2.

Definition run (txs : list (list Call)) (s : State) : State := foldl step s txs.

(** The states a function of the contract can be called in: after any number
    of transactions, and any calls the current transaction has already made. *)
Definition reachable (s : State) : Prop :=
  exists o txs tx rs, call_all tx (run txs (init_state o)) = Ok rs s.

End Contract.
End Acl.

(** ** A reference instance of the library

    A permissive stand-in for the FHE library that can be run: it grants
    every decryption request, performs every addition, and its verifier looks
    at the tag of the proof only, not at the requests that were issued
    ([AclLib] below is the instance that refuses).  A handle tags its
    plaintext ([v + 1], so that handle [0] stays the uninitialised one; the
    runs below stay far from the 32-bit wrap-around, which it leaves out),
    request identifiers come from a counter, a proof is the cleartexts
    prefixed with the low byte of the request identifier, and every byte of
    the cleartexts decodes to one array element. *)
Module TestLib.

Definition isInitialized (h : euint32) : bool := negb (h =? 0).
Definition asEuint32 (v : uint32) : euint32 := v + 1.
Definition add (a b : euint32) : euint32 := (a - 1) + (b - 1) + 1.
Definition toBytes32 (h : euint32) : bytes32 := h.
Definition requestDecryption (cts : list bytes32) (sel : Selector) (counter : Z)
    : option (uint256 * Z) :=
  Some (counter, counter + 1).
Definition sign (requestId : uint256) (cleartexts : bytes) : bytes :=
  match Byte.of_N (Z.to_N (requestId mod 256)) with
  | Some b => b :: cleartexts
  | None => cleartexts
  end.
Definition byte_value (b : byte) : Z := Z.of_N (Byte.to_N b).
Fixpoint same_bytes (a b : bytes) : bool :=
  match a, b with
  | [], [] => true
  | x :: a', y :: b' => (byte_value x =? byte_value y) && same_bytes a' b'
  | _, _ => false
  end.
Definition checkSignatures (requestId : uint256) (cleartexts proof : bytes) (counter : Z) : bool :=
  same_bytes proof (sign requestId cleartexts).
Definition decode_array (cleartexts : bytes) : option (list uint32) :=
  Some (byte_value <$> cleartexts).
Definition decode_scalar (cleartexts : bytes) : option uint32 :=
  match cleartexts with
  | [b] => Some (byte_value b)
  | _ => None
  end.

#[export] Instance lib : External := {|
  OracleState := Z;
  FHE_isInitialized := isInitialized;
  FHE_asEuint32 := asEuint32;
  FHE_add := add;
  FHE_toBytes32 := toBytes32;
  FHE_requestDecryption := requestDecryption;
  FHE_checkSignatures := checkSignatures;
  abi_decode_uint32_array := decode_array;
  abi_decode_uint32 := decode_scalar
|}.

(** A freshly deployed contract over the reference library. *)
Definition fresh : State := init_state (0 : Z).

(** One update submitted and its decryption requested (request 0). *)
Definition pending : State :=
  run [call_submitEncryptedUpdate 11 12 1000; call_requestUpdateDecryption 1] fresh.

(** The callback for request 0 accepted with value 30. *)
Definition revealed : State :=
  step pending (call_decryptContribution 0 [x1e] (sign 0 [x1e])).

(** Two updates submitted, both with a pending request (requests 0 and 1). *)
Definition two_pending : State :=
  run [call_submitEncryptedUpdate 11 12 1000; call_submitEncryptedUpdate 21 22 1001;
       call_requestUpdateDecryption 1; call_requestUpdateDecryption 2] fresh.

(** A decryption requested for identifier 99, which nobody submitted. *)
Definition dangling : State := run [call_requestUpdateDecryption 99] fresh.

(** ... and the callback for that request accepted with value 30. *)
Definition dangling_revealed : State :=
  step dangling (call_decryptContribution 0 [x1e] (sign 0 [x1e])).

(** One update submitted, nothing requested yet. *)
Definition submitted : State := run [call_submitEncryptedUpdate 11 12 1000] fresh.

(** A contract whose counter has reached the largest [uint256]. *)
Definition full : State := set_updateCount MAX_UINT256 fresh.

End TestLib.

(** ** A second instance, whose additions never yield the zero handle

    As [TestLib], except that a handle is [2 * v + 1] and an addition sets
    the low bit of its result, so that every handle the library produces is
    an initialised one. *)
Module OddLib.

Definition asEuint32 (v : uint32) : euint32 := 2 * v + 1.
Definition add (a b : euint32) : euint32 := Z.lor (a + b - 1) 1.

#[export] Instance lib : External := {|
  OracleState := Z;
  FHE_isInitialized := TestLib.isInitialized;
  FHE_asEuint32 := asEuint32;
  FHE_add := add;
  FHE_toBytes32 := TestLib.toBytes32;
  FHE_requestDecryption := TestLib.requestDecryption;
  FHE_checkSignatures := TestLib.checkSignatures;
  abi_decode_uint32_array := TestLib.decode_array;
  abi_decode_uint32 := TestLib.decode_scalar
|}.

Definition fresh : State := init_state (0 : Z).

(** Identifiers 1 and 2 submitted and requested (requests 0 and 1); then
    request 0 answered with 30, request 1 with 7 and request 0 with 30 again. *)
Definition three_reveals : State :=
  run [call_submitEncryptedUpdate 11 12 1000; call_submitEncryptedUpdate 21 22 1001;
       call_requestUpdateDecryption 1; call_requestUpdateDecryption 2;
       call_decryptContribution 0 [x1e] (TestLib.sign 0 [x1e]);
       call_decryptContribution 1 [x07] (TestLib.sign 1 [x07]);
       call_decryptContribution 0 [x1e] (TestLib.sign 0 [x1e])] fresh.

End OddLib.

(** ** An instance that keeps permissions

    A stand-in that refuses what the library refuses.  The library storage
    holds the request counter, the next fresh handle, the handles the
    contract may use for good and those it may use until the end of the
    transaction.  The zero handle is never usable.  A decryption request is
    granted only for handles the contract may use; a proof is accepted only
    for a request identifier that was handed out; [asEuint32] and [add] return
    a fresh handle usable until the end of the transaction, and [add] is
    refused unless the contract may use both operands. *)
Module AclLib.

Record storage := mkStorage {
  counterRequest : Z;
  nextHandle : Z;
  persistent : list Z;
  transient : list Z
}.

Definition allowed (h : euint32) (o : storage) : bool :=
  negb (h =? 0) && (existsb (Z.eqb h) (persistent o) || existsb (Z.eqb h) (transient o)).

Definition requestDecryption (cts : list bytes32) (sel : Selector) (o : storage)
    : option (uint256 * storage) :=
  if forallb (fun h => allowed h o) cts
  then Some (counterRequest o,
             mkStorage (counterRequest o + 1) (nextHandle o) (persistent o) (transient o))
  else None.

Definition checkSignatures (requestId : uint256) (cleartexts proof : bytes) (o : storage) : bool :=
  (0 <=? requestId) && (requestId <? counterRequest o)
  && TestLib.same_bytes proof (TestLib.sign requestId cleartexts).

Definition fresh_handle (o : storage) : euint32 * storage :=
  (nextHandle o,
   mkStorage (counterRequest o) (nextHandle o + 1) (persistent o) (nextHandle o :: transient o)).

Definition asEuint32 (v : uint32) (o : storage) : option (euint32 * storage) :=
  Some (fresh_handle o).

Definition add (a b : euint32) (o : storage) : option (euint32 * storage) :=
  if allowed a o && allowed b o then Some (fresh_handle o) else None.

Definition endTransaction (o : storage) : storage :=
  mkStorage (counterRequest o) (nextHandle o) (persistent o) [].

#[export] Instance lib : External := {|
  OracleState := storage;
  FHE_isInitialized := TestLib.isInitialized;
  FHE_asEuint32 := TestLib.asEuint32;
  FHE_add := TestLib.add;
  FHE_toBytes32 := TestLib.toBytes32;
  FHE_requestDecryption := requestDecryption;
  FHE_checkSignatures := checkSignatures;
  abi_decode_uint32_array := TestLib.decode_array;
  abi_decode_uint32 := TestLib.decode_scalar
|}.

#[export] Instance host : Host := {|
  host_asEuint32 := asEuint32;
  host_add := add;
  host_endTransaction := endTransaction
|}.

(** A freshly deployed contract; the submitters have let it use the handles
    11, 12, 21 and 22. *)
Definition deployed : State := init_state (mkStorage 0 100 [11; 12; 21; 22] []).

(** One update submitted and its decryption requested (request 0), each in a
    transaction of its own. *)
Definition pending : State :=
  Acl.run [[call_submitEncryptedUpdate 11 12 1000]; [call_requestUpdateDecryption 1]] deployed.

(** The callback for request 0 accepted with value 30, in a third transaction. *)
Definition revealed : State :=
  Acl.step pending [call_decryptContribution 0 [x1e] (TestLib.sign 0 [x1e])].

(** The state inside that third transaction, after the callback returned. *)
Definition accepted_once : State :=
  match Acl.decryptContribution 0 [x1e] (TestLib.sign 0 [x1e]) pending with
  | Ok _ s => s
  | Revert _ s => s
  end.

(** From [pending], one transaction that delivers the callback for request 0
    and requests the total of identifier 1 (request 1). *)
Definition revealed_and_total_requested : State :=
  Acl.step pending [call_decryptContribution 0 [x1e] (TestLib.sign 0 [x1e]);
                    call_requestContributionTotalDecryption 1].

(** One update submitted and its decryption requested, as [run] has it. *)
Definition tracked : State :=
  run [call_submitEncryptedUpdate 11 12 1000; call_requestUpdateDecryption 1] deployed.

End AclLib.

(** * Properties *)

Section Properties.
Context `{Ext : External}.

(** Unfolds the computation combinators down to matches on the storage. *)
Ltac unfold_M :=
  unfold mbind, mret, M_bind, M_ret, bind, ret, get, modify, require, revert,
    checked_add, index, requestDecryption, checkSignatures,
    decode_uint32_array, decode_uint32 in *.

(** ** What each function does, in closed form *)

Lemma submitEncryptedUpdate_unfold w m ts s :
  submitEncryptedUpdate w m ts s =
  if updateCount s + 1 <=? MAX_UINT256 then
    let newId := updateCount s + 1 in
    Ok tt (mkState newId
             (<[newId := EncryptedModelUpdate.mk newId w m ts]> (encryptedUpdates s))
             (<[newId := DecryptedContribution.mk newId 0 false]> (decryptedContributions s))
             (encryptedContributionTotals s) (participantList s) (requestToUpdateId s)
             (oracle s) (events s ++ [UpdateSubmitted newId ts]))
  else Revert (Panic 17) s.
Proof.
  unfold submitEncryptedUpdate. unfold_M.
  destruct (updateCount s + 1 <=? MAX_UINT256); reflexivity.
Qed.

Lemma requestUpdateDecryption_unfold updateId s :
  requestUpdateDecryption updateId s =
  if DecryptedContribution.isRevealed (decryptedContributions_at s updateId)
  then Revert AlreadyRevealed s
  else
    let update := encryptedUpdates_at s updateId in
    match FHE_requestDecryption
            [FHE_toBytes32 (EncryptedModelUpdate.encryptedWeights update);
             FHE_toBytes32 (EncryptedModelUpdate.encryptedMetrics update)]
            decryptContribution_selector (oracle s) with
    | Some (reqId, o') =>
        Ok tt (mkState (updateCount s) (encryptedUpdates s) (decryptedContributions s)
                 (encryptedContributionTotals s) (participantList s)
                 (<[reqId := updateId]> (requestToUpdateId s))
                 o' (events s ++ [DecryptionRequested updateId]))
    | None => Revert RequestRejected s
    end.
Proof.
  unfold requestUpdateDecryption. unfold_M.
  destruct (DecryptedContribution.isRevealed _); cbn; [reflexivity|].
  destruct (FHE_requestDecryption _ _ _) as [[reqId o']|]; reflexivity.
Qed.

Lemma requestContributionTotalDecryption_unfold updateId s :
  requestContributionTotalDecryption updateId s =
  let total := encryptedContributionTotals_at s updateId in
  if FHE_isInitialized total then
    match FHE_requestDecryption [FHE_toBytes32 total]
            decryptTotalContribution_selector (oracle s) with
    | Some (reqId, o') =>
        Ok tt (mkState (updateCount s) (encryptedUpdates s) (decryptedContributions s)
                 (encryptedContributionTotals s) (participantList s)
                 (<[reqId := updateId]> (requestToUpdateId s))
                 o' (events s))
    | None => Revert RequestRejected s
    end
  else Revert NotFound s.
Proof.
  unfold requestContributionTotalDecryption. unfold_M.
  destruct (FHE_isInitialized _); cbn; [|reflexivity].
  destruct (FHE_requestDecryption _ _ _) as [[reqId o']|]; reflexivity.
Qed.

Lemma decryptContribution_unfold requestId cleartexts proof s :
  decryptContribution requestId cleartexts proof s =
  let updateId := requestToUpdateId_at s requestId in
  if updateId =? 0 then Revert UnknownRequest s
  else if FHE_checkSignatures requestId cleartexts proof (oracle s) then
    match abi_decode_uint32_array cleartexts with
    | None => Revert DecodeFailed s
    | Some results =>
        match results !! 0%nat with
        | None => Revert (Panic 50) s
        | Some r0 => Ok tt (accept updateId r0 s)
        end
    end
  else Revert VerificationFailed s.
Proof.
  unfold decryptContribution, accept. unfold_M.
  destruct (requestToUpdateId_at s requestId =? 0); cbn; [reflexivity|].
  destruct (FHE_checkSignatures _ _ _ _); cbn; [|reflexivity].
  destruct (abi_decode_uint32_array _) as [results|]; cbn; [|reflexivity].
  destruct (results !! 0%nat) as [r0|]; cbn; [|reflexivity].
  unfold decryptedContributions_at, encryptedContributionTotals_at; cbn.
  rewrite !lookup_insert_eq; cbn.
  destruct (FHE_isInitialized _); cbn;
    unfold emit_event, set_encryptedContributionTotals, push_participantList,
      set_decryptedContributions, DecryptedContribution.set_isRevealed,
      DecryptedContribution.set_shapleyValue; cbn.
  - rewrite insert_insert_eq. reflexivity.
  - rewrite lookup_insert_eq, !insert_insert_eq. reflexivity.
Qed.

Lemma decryptTotalContribution_unfold requestId cleartexts proof s :
  decryptTotalContribution requestId cleartexts proof s =
  if FHE_checkSignatures requestId cleartexts proof (oracle s) then
    match abi_decode_uint32 cleartexts with
    | Some _ => Ok tt s
    | None => Revert DecodeFailed s
    end
  else Revert VerificationFailed s.
Proof.
  unfold decryptTotalContribution. unfold_M.
  destruct (FHE_checkSignatures _ _ _ _); cbn; [|reflexivity].
  destruct (abi_decode_uint32 _); reflexivity.
Qed.

(** ** Failing calls *)

Lemma dispatch_unfold c s :
  dispatch c s =
  match c with
  | call_submitEncryptedUpdate w m ts =>
      match submitEncryptedUpdate w m ts s with
      | Ok _ s' => Ok ret_nothing s' | Revert e s' => Revert e s' end
  | call_requestUpdateDecryption updateId =>
      match requestUpdateDecryption updateId s with
      | Ok _ s' => Ok ret_nothing s' | Revert e s' => Revert e s' end
  | call_decryptContribution requestId cleartexts proof =>
      match decryptContribution requestId cleartexts proof s with
      | Ok _ s' => Ok ret_nothing s' | Revert e s' => Revert e s' end
  | call_getDecryptedContribution updateId =>
      let c := decryptedContributions_at s updateId in
      Ok (ret_contribution (DecryptedContribution.participantId c)
            (DecryptedContribution.shapleyValue c)
            (DecryptedContribution.isRevealed c)) s
  | call_getEncryptedContributionTotal updateId =>
      Ok (ret_euint32 (encryptedContributionTotals_at s updateId)) s
  | call_requestContributionTotalDecryption updateId =>
      match requestContributionTotalDecryption updateId s with
      | Ok _ s' => Ok ret_nothing s' | Revert e s' => Revert e s' end
  | call_decryptTotalContribution requestId cleartexts proof =>
      match decryptTotalContribution requestId cleartexts proof s with
      | Ok _ s' => Ok ret_nothing s' | Revert e s' => Revert e s' end
  | call_updateCount => Ok (ret_uint256 (updateCount s)) s
  end.
Proof. destruct c; reflexivity. Qed.






Lemma transact_revert c s e s_at :
  dispatch c s = Revert e s_at -> transact c s = (inr e, s).
Proof. unfold transact. intros ->. reflexivity. Qed.


(** C8.  Requesting the decryption of an identifier whose record is already
    revealed fails with [AlreadyRevealed], before anything is written, and
    the transaction leaves the state as it was. *)
Theorem requestUpdateDecryption_already_revealed (s : State) (updateId : uint256) :
  DecryptedContribution.isRevealed (decryptedContributions_at s updateId) = true ->
  requestUpdateDecryption updateId s = Revert AlreadyRevealed s /\
  transact (call_requestUpdateDecryption updateId) s = (inr AlreadyRevealed, s).
Proof.
  intros Hrev.
  assert (Hbody : requestUpdateDecryption updateId s = Revert AlreadyRevealed s).
  { rewrite requestUpdateDecryption_unfold, Hrev. reflexivity. }
  split; [exact Hbody|].
  apply (transact_revert _ _ _ s). rewrite dispatch_unfold, Hbody. reflexivity.
Qed.

(** C1, as the code has it.  The tracker is consulted before the proof: a
    call of [decryptContribution] whose proof the verifier rejects fails with
    [UnknownRequest] when the request identifier resolves to no target, and
    with [VerificationFailed] when it resolves to one; in both cases nothing
    has been written and the state is left as it was. *)
Theorem decryptContribution_rejected_proof
    (s : State) (requestId : uint256) (cleartexts proof : bytes) :
  FHE_checkSignatures requestId cleartexts proof (oracle s) = false ->
  let e := if requestToUpdateId_at s requestId =? 0
           then UnknownRequest else VerificationFailed in
  decryptContribution requestId cleartexts proof s = Revert e s /\
  transact (call_decryptContribution requestId cleartexts proof) s = (inr e, s).
Proof.
  intros Hforged e.
  assert (Hbody : decryptContribution requestId cleartexts proof s = Revert e s).
  { rewrite decryptContribution_unfold; cbn. subst e.
    destruct (_ =? 0); [reflexivity|]. rewrite Hforged. reflexivity. }
  split; [exact Hbody|].
  apply (transact_revert _ _ _ s). rewrite dispatch_unfold, Hbody. reflexivity.
Qed.

(** The individual lane rejects every request identifier the tracker does
    not resolve, whatever the cleartexts and the proof. *)
Lemma decryptContribution_unresolved
    (s : State) (requestId : uint256) (cleartexts proof : bytes) :
  requestToUpdateId_at s requestId = 0 ->
  decryptContribution requestId cleartexts proof s = Revert UnknownRequest s.
Proof.
  intros H0. rewrite decryptContribution_unfold; cbn. rewrite H0. reflexivity.
Qed.


(** ** Reachable states *)

Lemma reachable_init o : reachable (init_state o).
Proof. exists o, []. reflexivity. Qed.

Lemma reachable_step s c : reachable s -> reachable (step s c).
Proof.
  intros (o & calls & ->). exists o, (calls ++ [c]).
  unfold run. rewrite foldl_snoc. reflexivity.
Qed.

Lemma reachable_induction (P : State -> Prop) :
  (forall o, P (init_state o)) ->
  (forall s c, reachable s -> P s -> P (step s c)) ->
  forall s, reachable s -> P s.
Proof.
  intros Hinit Hstep s (o & calls & ->).
  induction calls as [|c calls IH] using rev_ind; [apply Hinit|].
  unfold run in *. rewrite foldl_snoc. apply Hstep; [|exact IH].
  exists o, calls. reflexivity.
Qed.

(** The five ways a transaction can change the storage. *)
Lemma step_cases s c :
  step s c = s
  \/ (exists w m ts,
        updateCount s + 1 <= MAX_UINT256 /\
        step s c =
          mkState (updateCount s + 1)
            (<[updateCount s + 1 :=
                 EncryptedModelUpdate.mk (updateCount s + 1) w m ts]> (encryptedUpdates s))
            (<[updateCount s + 1 :=
                 DecryptedContribution.mk (updateCount s + 1) 0 false]>
               (decryptedContributions s))
            (encryptedContributionTotals s) (participantList s) (requestToUpdateId s)
            (oracle s) (events s ++ [UpdateSubmitted (updateCount s + 1) ts]))
  \/ (exists updateId reqId o',
        step s c =
          mkState (updateCount s) (encryptedUpdates s) (decryptedContributions s)
            (encryptedContributionTotals s) (participantList s)
            (<[reqId := updateId]> (requestToUpdateId s))
            o' (events s ++ [DecryptionRequested updateId]))
  \/ (exists updateId reqId o',
        step s c =
          mkState (updateCount s) (encryptedUpdates s) (decryptedContributions s)
            (encryptedContributionTotals s) (participantList s)
            (<[reqId := updateId]> (requestToUpdateId s))
            o' (events s))
  \/ (exists updateId r0, updateId <> 0 /\ step s c = accept updateId r0 s).
Proof.
  unfold step, transact. rewrite dispatch_unfold. destruct c; cbn; auto.
  - rewrite submitEncryptedUpdate_unfold.
    destruct (updateCount s + 1 <=? MAX_UINT256) eqn:E; cbn; auto.
    right; left. exists encryptedWeights, encryptedMetrics, block_timestamp.
    split; [lia | reflexivity].
  - rewrite requestUpdateDecryption_unfold.
    destruct (DecryptedContribution.isRevealed _); cbn; auto.
    destruct (FHE_requestDecryption _ _ _) as [[reqId o']|]; cbn; auto.
    right; right; left. exists updateId, reqId, o'. reflexivity.
  - rewrite decryptContribution_unfold; cbn.
    destruct (requestToUpdateId_at s requestId =? 0) eqn:E; cbn; auto.
    destruct (FHE_checkSignatures _ _ _ _); cbn; auto.
    destruct (abi_decode_uint32_array _) as [results|]; cbn; auto.
    destruct (results !! 0%nat) as [r0|]; cbn; auto.
    right; right; right; right. exists (requestToUpdateId_at s requestId), r0.
    split; [lia | reflexivity].
  - rewrite requestContributionTotalDecryption_unfold; cbn.
    destruct (FHE_isInitialized _); cbn; auto.
    destruct (FHE_requestDecryption _ _ _) as [[reqId o']|]; cbn; auto.
    right; right; right; left. exists updateId, reqId, o'. reflexivity.
  - rewrite decryptTotalContribution_unfold.
    destruct (FHE_checkSignatures _ _ _ _); cbn; auto.
    destruct (abi_decode_uint32 _); cbn; auto.
Qed.

(** The counter stays a [uint256]. *)
Lemma updateCount_range s :
  reachable s -> 0 <= updateCount s <= MAX_UINT256.
Proof.
  revert s. apply reachable_induction.
  - intros o; cbn. unfold MAX_UINT256. lia.
  - intros s c _ IH.
    destruct (step_cases s c) as [-> | [(w & m & ts & Hle & ->) |
      [(u & r & o' & ->) | [(u & r & o' & ->) | (u & r0 & _ & ->)]]]]; cbn; lia.
Qed.

(** The identifiers announced in the log are [1, 2, ..., updateCount]. *)
Lemma submitted_ids_range s :
  reachable s -> submitted_ids (events s) = seqZ 1 (updateCount s).
Proof.
  revert s. apply reachable_induction.
  - reflexivity.
  - intros s c Hs IH. pose proof (updateCount_range s Hs) as Hrange.
    destruct (step_cases s c) as [-> | [(w & m & ts & Hle & ->) |
      [(u & r & o' & ->) | [(u & r & o' & ->) | (u & r0 & _ & ->)]]]]; cbn;
      unfold submitted_ids in *; rewrite ?omap_app, ?IH; cbn;
      rewrite ?app_nil_r; try reflexivity.
    rewrite (seqZ_app 1 (updateCount s) 1) by lia.
    f_equal. rewrite seqZ_cons, seqZ_nil by lia. f_equal. lia.
Qed.

(** An [EncryptedModelUpdate] is stored exactly under the identifiers
    [1 .. updateCount], and each of them also has its record. *)
Lemma ledgers_range s :
  reachable s ->
  forall k,
    (1 <= k <= updateCount s -> update_exists s k /\ record_exists s k) /\
    (~ (1 <= k <= updateCount s) -> encryptedUpdates s !! k = None).
Proof.
  intros Hs. pattern s. revert s Hs. apply reachable_induction.
  - intros o k; cbn. split; [lia | intros _; apply lookup_empty].
  - intros s c Hs IH k. pose proof (updateCount_range s Hs) as Hrange.
    destruct (IH k) as [IHin IHout].
    destruct (step_cases s c) as [-> | [(w & m & ts & Hle & ->) |
      [(u & r & o' & ->) | [(u & r & o' & ->) | (u & r0 & _ & ->)]]]];
      unfold update_exists, record_exists in *; cbn; auto.
    + split.
      * intros Hk. destruct (decide (k = updateCount s + 1)) as [->|Hne].
        -- rewrite !lookup_insert_eq. split; eexists; split; reflexivity.
        -- rewrite !lookup_insert_ne by congruence. apply IHin. lia.
      * intros Hk. rewrite lookup_insert_ne by lia. apply IHout. lia.
    + split; [|exact IHout].
      intros Hk. destruct (IHin Hk) as [Hu (c0 & Hc0 & Hpid)]. split; [exact Hu|].
      destruct (decide (k = u)) as [->|Hne].
      * rewrite lookup_insert_eq. unfold decryptedContributions_at. rewrite Hc0; cbn. eauto.
      * rewrite lookup_insert_ne by congruence. eauto.
Qed.

(** No aggregate total is ever stored under identifier 0. *)
Lemma totals_zero_unwritten s :
  reachable s -> encryptedContributionTotals s !! 0 = None.
Proof.
  revert s. apply reachable_induction.
  - intros o. apply lookup_empty.
  - intros s c _ IH.
    destruct (step_cases s c) as [-> | [(w & m & ts & Hle & ->) |
      [(u & r & o' & ->) | [(u & r & o' & ->) | (u & r0 & Hu & ->)]]]]; cbn; auto.
    rewrite lookup_insert_ne by congruence. exact IH.
Qed.

(** ** Accepting a callback *)

(** What [accept] leaves under the target and under every other key. *)
Lemma accept_record X r0 s :
  decryptedContributions_at (accept X r0 s) X =
  DecryptedContribution.mk
    (DecryptedContribution.participantId (decryptedContributions_at s X)) r0 true.
Proof. unfold decryptedContributions_at, accept; cbn. rewrite lookup_insert_eq. reflexivity. Qed.

Lemma accept_total X r0 s :
  encryptedContributionTotals_at (accept X r0 s) X =
  FHE_add (if FHE_isInitialized (encryptedContributionTotals_at s X)
           then encryptedContributionTotals_at s X else FHE_asEuint32 0)
          (FHE_asEuint32 r0).
Proof.
  unfold encryptedContributionTotals_at at 1. unfold accept; cbn.
  rewrite lookup_insert_eq; cbn.
  destruct (FHE_isInitialized _); reflexivity.
Qed.

Lemma decryptContribution_accepts requestId cleartexts proof s r0 rest :
  requestToUpdateId_at s requestId <> 0 ->
  FHE_checkSignatures requestId cleartexts proof (oracle s) = true ->
  abi_decode_uint32_array cleartexts = Some (r0 :: rest) ->
  decryptContribution requestId cleartexts proof s =
  Ok tt (accept (requestToUpdateId_at s requestId) r0 s).
Proof.
  intros HX Hsig Hdec. rewrite decryptContribution_unfold; cbn.
  destruct (Z.eqb_spec (requestToUpdateId_at s requestId) 0) as [|_]; [contradiction|].
  rewrite Hsig, Hdec. reflexivity.
Qed.

Lemma decryptContribution_Ok_inv requestId cleartexts proof s s' :
  decryptContribution requestId cleartexts proof s = Ok tt s' ->
  exists r0 rest,
    requestToUpdateId_at s requestId <> 0 /\
    FHE_checkSignatures requestId cleartexts proof (oracle s) = true /\
    abi_decode_uint32_array cleartexts = Some (r0 :: rest) /\
    s' = accept (requestToUpdateId_at s requestId) r0 s.
Proof.
  rewrite decryptContribution_unfold; cbn.
  destruct (Z.eqb_spec (requestToUpdateId_at s requestId) 0) as [|HX]; [discriminate|].
  destruct (FHE_checkSignatures _ _ _ _); [|discriminate].
  destruct (abi_decode_uint32_array _) as [[|r0 rest]|]; cbn; try discriminate.
  intros [= <-]. exists r0, rest. auto.
Qed.

(** C9 (no cross-id mixing).  A successful [decryptContribution] whose
    request resolves to [X] adds the decoded value into the total of [X] and
    touches nothing of any other identifier [Y]: the record of [Y], the total
    of [Y] and every position at which [Y] stands in the participant index
    are as before. *)
Theorem decryptContribution_frame
    (s s' : State) (requestId : uint256) (cleartexts proof : bytes) (Y : uint256) :
  decryptContribution requestId cleartexts proof s = Ok tt s' ->
  Y <> requestToUpdateId_at s requestId ->
  decryptedContributions s' !! Y = decryptedContributions s !! Y /\
  encryptedContributionTotals s' !! Y = encryptedContributionTotals s !! Y /\
  (forall i : nat, participantList s' !! i = Some Y <-> participantList s !! i = Some Y) /\
  exists r0 rest,
    abi_decode_uint32_array cleartexts = Some (r0 :: rest) /\
    encryptedContributionTotals_at s' (requestToUpdateId_at s requestId) =
      FHE_add (if FHE_isInitialized (encryptedContributionTotals_at s (requestToUpdateId_at s requestId))
               then encryptedContributionTotals_at s (requestToUpdateId_at s requestId)
               else FHE_asEuint32 0)
              (FHE_asEuint32 r0).
Proof.
  intros Hok HY.
  destruct (decryptContribution_Ok_inv _ _ _ _ _ Hok) as (r0 & rest & HX & _ & Hdec & ->).
  set (X := requestToUpdateId_at s requestId) in *.
  repeat split.
  - unfold accept; cbn. apply lookup_insert_ne. congruence.
  - unfold accept; cbn. apply lookup_insert_ne. congruence.
  - unfold accept; cbn. destruct (negb _); [|tauto].
    intros Hi. apply lookup_snoc_Some in Hi as [[_ Hi] | [_ Hi]]; [exact Hi | congruence].
  - unfold accept; cbn. destruct (negb _); [|tauto].
    intros Hi. apply lookup_snoc_Some. left.
    split; [eapply lookup_lt_Some; eassumption | exact Hi].
  - exists r0, rest. split; [exact Hdec | apply accept_total].
Qed.

(** C7 (round trip).  Submitting, requesting the decryption of the
    identifier just allocated, and accepting the callback for the request
    identifier the library returned, with cleartexts that decode to [v] first
    and a proof the verifier accepts, leaves [getDecryptedContribution]
    returning [(id, v, true)]. *)
Theorem round_trip
    (s : State) (w m ts : Z) (requestId : uint256) (o' : OracleState)
    (cleartexts proof : bytes) (v : uint32) (rest : list uint32) :
  0 <= updateCount s < MAX_UINT256 ->
  let newId := updateCount s + 1 in
  FHE_requestDecryption [FHE_toBytes32 w; FHE_toBytes32 m]
    decryptContribution_selector (oracle s) = Some (requestId, o') ->
  FHE_checkSignatures requestId cleartexts proof o' = true ->
  abi_decode_uint32_array cleartexts = Some (v :: rest) ->
  exists s1 s2 s3,
    submitEncryptedUpdate w m ts s = Ok tt s1 /\
    updateCount s1 = newId /\
    requestUpdateDecryption newId s1 = Ok tt s2 /\
    decryptContribution requestId cleartexts proof s2 = Ok tt s3 /\
    getDecryptedContribution newId s3 = Ok (newId, v, true) s3 /\
    dispatch (call_getDecryptedContribution newId) s3 = Ok (ret_contribution newId v true) s3.
Proof.
  intros Hrange newId Hreq Hsig Hdec.
  assert (H1 : exists s1,
    submitEncryptedUpdate w m ts s = Ok tt s1 /\ updateCount s1 = newId /\
    decryptedContributions_at s1 newId = DecryptedContribution.mk newId 0 false /\
    encryptedUpdates_at s1 newId = EncryptedModelUpdate.mk newId w m ts /\
    oracle s1 = oracle s).
  { eexists. split.
    - rewrite submitEncryptedUpdate_unfold.
      destruct (Z.leb_spec (updateCount s + 1) MAX_UINT256) as [_|]; [reflexivity | lia].
    - unfold decryptedContributions_at, encryptedUpdates_at; cbn.
      rewrite !lookup_insert_eq. auto. }
  destruct H1 as (s1 & Hsubmit & Hcount & Hrec & Hupd & Horacle).
  assert (H2 : exists s2,
    requestUpdateDecryption newId s1 = Ok tt s2 /\
    requestToUpdateId_at s2 requestId = newId /\
    decryptedContributions_at s2 newId = decryptedContributions_at s1 newId /\
    oracle s2 = o').
  { eexists. split.
    - rewrite requestUpdateDecryption_unfold, Hrec, Hupd, Horacle; cbn.
      rewrite Hreq. reflexivity.
    - unfold requestToUpdateId_at; cbn. rewrite lookup_insert_eq. auto. }
  destruct H2 as (s2 & Hrequest & Hres & Hkeep & Horacle2).
  assert (Hget : decryptedContributions_at (accept newId v s2) newId =
                 DecryptedContribution.mk newId v true).
  { rewrite accept_record, Hkeep, Hrec. reflexivity. }
  exists s1, s2, (accept newId v s2).
  split; [exact Hsubmit|]. split; [exact Hcount|]. split; [exact Hrequest|].
  split.
  { rewrite (decryptContribution_accepts _ _ _ _ v rest); rewrite ?Hres, ?Horacle2; auto.
    subst newId. lia. }
  split.
  - unfold getDecryptedContribution. unfold_M. rewrite Hget. reflexivity.
  - rewrite dispatch_unfold; cbn. rewrite Hget. reflexivity.
Qed.

(** ** Identifiers and the tracker *)

(** C6, as the code has it.  [submitEncryptedUpdate] hands nothing back to
    its caller; it takes the next value of the one counter as the new
    identifier and announces it in [UpdateSubmitted].  In every reachable
    state the identifiers announced so far are 1, 2, ..., [updateCount] in
    that order, and while the counter is below its maximum the next call
    succeeds and announces [updateCount + 1]. *)
Theorem submit_announces_next_id (s : State) (w m ts : Z) :
  reachable s ->
  submitted_ids (events s) = seqZ 1 (updateCount s) /\
  (updateCount s < MAX_UINT256 ->
   exists s',
     transact (call_submitEncryptedUpdate w m ts) s = (inl ret_nothing, s') /\
     updateCount s' = updateCount s + 1 /\
     events s' = events s ++ [UpdateSubmitted (updateCount s + 1) ts] /\
     submitted_ids (events s') = seqZ 1 (updateCount s) ++ [updateCount s + 1] /\
     encryptedUpdates_at s' (updateCount s + 1) =
       EncryptedModelUpdate.mk (updateCount s + 1) w m ts /\
     decryptedContributions_at s' (updateCount s + 1) =
       DecryptedContribution.mk (updateCount s + 1) 0 false).
Proof.
  intros Hs. split; [apply submitted_ids_range; exact Hs|].
  intros Hlt. eexists. split.
  { unfold transact. rewrite dispatch_unfold, submitEncryptedUpdate_unfold.
    destruct (Z.leb_spec (updateCount s + 1) MAX_UINT256) as [_|]; [reflexivity | lia]. }
  cbn. repeat split.
  - unfold submitted_ids. rewrite omap_app. fold (submitted_ids (events s)).
    rewrite (submitted_ids_range s Hs). reflexivity.
  - unfold encryptedUpdates_at; cbn. rewrite lookup_insert_eq. reflexivity.
  - unfold decryptedContributions_at; cbn. rewrite lookup_insert_eq. reflexivity.
Qed.

(** ** Requests that were never issued *)

Lemma step_tracker s c r :
  requestToUpdateId (step s c) !! r = requestToUpdateId s !! r \/
  issued_by c s = Some r.
Proof.
  unfold step, transact. rewrite dispatch_unfold. destruct c; cbn; auto.
  - rewrite submitEncryptedUpdate_unfold. destruct (_ <=? _); cbn; auto.
  - rewrite requestUpdateDecryption_unfold.
    destruct (DecryptedContribution.isRevealed _); cbn; auto.
    destruct (FHE_requestDecryption _ _ _) as [[reqId o']|]; cbn; auto.
    destruct (decide (reqId = r)) as [->|Hne]; [auto|].
    left. apply lookup_insert_ne. exact Hne.
  - rewrite decryptContribution_unfold; cbn.
    destruct (_ =? 0); cbn; auto.
    destruct (FHE_checkSignatures _ _ _ _); cbn; auto.
    destruct (abi_decode_uint32_array _) as [results|]; cbn; auto.
    destruct (results !! 0%nat); cbn; auto.
  - rewrite requestContributionTotalDecryption_unfold; cbn.
    destruct (FHE_isInitialized _); cbn; auto.
    destruct (FHE_requestDecryption _ _ _) as [[reqId o']|]; cbn; auto.
    destruct (decide (reqId = r)) as [->|Hne]; [auto|].
    left. apply lookup_insert_ne. exact Hne.
  - rewrite decryptTotalContribution_unfold.
    destruct (FHE_checkSignatures _ _ _ _); cbn; auto.
    destruct (abi_decode_uint32 _); cbn; auto.
Qed.



End Properties.

(** * The contract run on explicit inputs *)

Section Concrete.
Import TestLib.

(** C1 fails as stated: on a fresh contract, request 5 with a proof the
    verifier rejects is turned down with [UnknownRequest], not with
    [VerificationFailed]. *)
Lemma forged_proof_unknown_request_counterexample :
  FHE_checkSignatures 5 [x1e] [] (oracle fresh) = false /\
  decryptContribution 5 [x1e] [] fresh = Revert UnknownRequest fresh /\
  decryptContribution 5 [x1e] [] fresh <> Revert VerificationFailed fresh.
Proof. split; [reflexivity|]. split; [reflexivity|]. discriminate. Qed.

Lemma decryptContribution_rejected_proof_witness :
  decryptContribution 0 [x1e] [] pending = Revert VerificationFailed pending /\
  transact (call_decryptContribution 0 [x1e] []) pending = (inr VerificationFailed, pending).
Proof.
  apply (decryptContribution_rejected_proof pending 0 [x1e] []). reflexivity.
Defined.

(** C6 fails as stated: the first submission on a fresh contract allocates
    identifier 1 and hands back no value at all. *)
Lemma submit_returns_nothing_counterexample :
  (transact (call_submitEncryptedUpdate 11 12 1000) fresh).1 = inl ret_nothing /\
  (transact (call_submitEncryptedUpdate 11 12 1000) fresh).1 <> inl (ret_uint256 1) /\
  updateCount (transact (call_submitEncryptedUpdate 11 12 1000) fresh).2 = 1.
Proof. split; [reflexivity|]. split; [discriminate | reflexivity]. Qed.

Lemma submit_announces_next_id_witness :
  submitted_ids (events two_pending) = [1; 2] /\
  exists s',
    transact (call_submitEncryptedUpdate 31 32 1002) two_pending = (inl ret_nothing, s') /\
    submitted_ids (events s') = [1; 2; 3].
Proof.
  assert (Hreach : reachable two_pending).
  { exists (0 : Z), [call_submitEncryptedUpdate 11 12 1000; call_submitEncryptedUpdate 21 22 1001;
                     call_requestUpdateDecryption 1; call_requestUpdateDecryption 2].
    reflexivity. }
  destruct (submit_announces_next_id two_pending 31 32 1002 Hreach) as [Hids Hnext].
  split; [exact Hids|].
  destruct Hnext as (s' & Htx & _ & _ & Hids' & _).
  { change (updateCount two_pending) with 2. unfold MAX_UINT256. lia. }
  exists s'. split; [exact Htx | exact Hids'].
Defined.

Lemma round_trip_witness :
  exists s1 s2 s3,
    submitEncryptedUpdate 11 12 1000 fresh = Ok tt s1 /\
    requestUpdateDecryption 1 s1 = Ok tt s2 /\
    decryptContribution 0 [x1e] (sign 0 [x1e]) s2 = Ok tt s3 /\
    getDecryptedContribution 1 s3 = Ok (1, 30, true) s3.
Proof.
  destruct (round_trip fresh 11 12 1000 0 (1 : Z) [x1e] (sign 0 [x1e]) 30 [])
    as (s1 & s2 & s3 & H1 & _ & H2 & H3 & H4 & _); try reflexivity.
  { change (updateCount fresh) with 0. unfold MAX_UINT256. lia. }
  exists s1, s2, s3. auto.
Defined.

Lemma requestUpdateDecryption_already_revealed_witness :
  requestUpdateDecryption 1 revealed = Revert AlreadyRevealed revealed /\
  transact (call_requestUpdateDecryption 1) revealed = (inr AlreadyRevealed, revealed).
Proof.
  apply (requestUpdateDecryption_already_revealed revealed 1). reflexivity.
Defined.

Lemma decryptContribution_frame_witness :
  decryptedContributions (step two_pending (call_decryptContribution 0 [x1e] (sign 0 [x1e]))) !! 2
    = decryptedContributions two_pending !! 2 /\
  encryptedContributionTotals (step two_pending (call_decryptContribution 0 [x1e] (sign 0 [x1e]))) !! 2
    = encryptedContributionTotals two_pending !! 2.
Proof.
  destruct (decryptContribution_frame two_pending
              (step two_pending (call_decryptContribution 0 [x1e] (sign 0 [x1e])))
              0 [x1e] (sign 0 [x1e]) 2 eq_refl) as (Hrec & Htot & _).
  { change (requestToUpdateId_at two_pending 0) with 1. lia. }
  split; [exact Hrec | exact Htot].
Defined.


End Concrete.

(** * Further properties of the contract *)

Section Ledgers.
Context `{Ext : External}.

(** Destructs a transaction into the five shapes of [step_cases]. *)
Ltac by_step_cases s c :=
  destruct (step_cases s c) as
    [-> | [(?w & ?m & ?ts & ?Hle & ->) |
    [(?u & ?r & ?o' & ->) | [(?u & ?r & ?o' & ->) | (?u & ?r0 & ?Hu & ->)]]]].

Lemma run_snoc calls c (s : State) : run (calls ++ [c]) s = step (run calls s) c.
Proof. unfold run. apply foldl_snoc. Qed.

Lemma run_cons calls c (s : State) : run (c :: calls) s = run calls (step s c).
Proof. reflexivity. Qed.

(** The counter never goes down. *)
Lemma updateCount_step s c : updateCount s <= updateCount (step s c).
Proof. by_step_cases s c; cbn; lia. Qed.

Lemma updateCount_run calls s : updateCount s <= updateCount (run calls s).
Proof.
  revert s. induction calls as [|c calls IH]; intros s; [reflexivity|].
  rewrite run_cons. pose proof (updateCount_step s c). pose proof (IH (step s c)). lia.
Qed.

(** What the log says about the records: a record outside 1 .. [updateCount]
    has been written by an accepted callback only, and a revealed record has
    its [ContributionDecrypted] in the log. *)
Lemma records_invariant s :
  reachable s ->
  forall k,
    (forall c, decryptedContributions s !! k = Some c ->
       ~ (1 <= k <= updateCount s) ->
       DecryptedContribution.participantId c = 0 /\
       DecryptedContribution.isRevealed c = true) /\
    (DecryptedContribution.isRevealed (decryptedContributions_at s k) = true ->
       k ∈ decrypted_ids (events s)) /\
    decryptedContributions s !! 0 = None.
Proof.
  intros Hs. pattern s. revert s Hs. apply reachable_induction.
  - intros o k. unfold decryptedContributions_at; cbn.
    rewrite !lookup_empty; cbn. repeat split; discriminate.
  - intros s c Hs IH k. pose proof (updateCount_range s Hs) as Hrange.
    destruct (IH k) as (IHout & IHrev & IHzero).
    pose proof (ledgers_range s Hs k) as [Hin _].
    by_step_cases s c; unfold decryptedContributions_at, decrypted_ids in *; cbn;
      rewrite ?omap_app; cbn; rewrite ?app_nil_r; auto.
    + (* submit *)
      split; [|split].
      * intros c0 Hc0 Hk. rewrite lookup_insert_ne in Hc0 by lia.
        apply (IHout c0 Hc0). lia.
      * destruct (decide (k = updateCount s + 1)) as [->|Hne].
        -- rewrite lookup_insert_eq; cbn. discriminate.
        -- rewrite lookup_insert_ne by congruence. exact IHrev.
      * rewrite lookup_insert_ne by lia. exact IHzero.
    + (* an accepted callback *)
      split; [|split].
      * intros c0 Hc0 Hk. destruct (decide (k = u)) as [->|Hne].
        -- rewrite lookup_insert_eq in Hc0. injection Hc0 as <-; cbn.
           split; [|reflexivity]. unfold decryptedContributions_at.
           destruct (decryptedContributions s !! u) as [c1|] eqn:E; cbn; [|reflexivity].
           apply (IHout c1 eq_refl Hk).
        -- rewrite lookup_insert_ne in Hc0 by congruence. apply (IHout c0 Hc0 Hk).
      * intros Hrev. apply elem_of_app. destruct (decide (k = u)) as [->|Hne].
        -- right. apply list_elem_of_singleton. reflexivity.
        -- left. apply IHrev. rewrite lookup_insert_ne in Hrev by congruence. exact Hrev.
      * rewrite lookup_insert_ne by congruence. exact IHzero.
Qed.

(** A total is stored for exactly the identifiers with an accepted callback. *)
Lemma totals_invariant s :
  reachable s ->
  forall k, is_Some (encryptedContributionTotals s !! k) <-> k ∈ decrypted_ids (events s).
Proof.
  intros Hs. pattern s. revert s Hs. apply reachable_induction.
  - intros o k; cbn. rewrite lookup_empty. split; [intros [? ?]; discriminate|].
    intros H. apply elem_of_nil in H. contradiction.
  - intros s c _ IH k. specialize (IH k).
    by_step_cases s c; unfold decrypted_ids in *; cbn;
      rewrite ?omap_app; cbn; rewrite ?app_nil_r; auto.
    rewrite elem_of_app, list_elem_of_singleton.
    destruct (decide (k = u)) as [->|Hne].
    + rewrite lookup_insert_eq. split; eauto.
    + rewrite lookup_insert_ne by congruence. rewrite IH. tauto.
Qed.

(** ** Reads of identifiers the contract has not seen *)

Lemma elem_of_decrypted_ids k log :
  k ∈ decrypted_ids log <-> ContributionDecrypted k ∈ log.
Proof.
  unfold decrypted_ids. rewrite list_elem_of_omap. split.
  - intros (e & He & Hk). destruct e; try discriminate. injection Hk as ->. exact He.
  - intros He. exists (ContributionDecrypted k). split; [exact He | reflexivity].
Qed.

(** X1.  In a reachable state, an identifier that was never submitted and
    for which no callback was accepted reads as the zero record and the zero
    handle: [getDecryptedContribution] returns [(0, 0, false)] and
    [getEncryptedContributionTotal] returns handle 0; neither call fails. *)
Theorem reads_of_unknown_id (s : State) (k : uint256) :
  reachable s ->
  ~ (1 <= k <= updateCount s) ->
  ContributionDecrypted k ∉ events s ->
  getDecryptedContribution k s = Ok (0, 0, false) s /\
  getEncryptedContributionTotal k s = Ok 0 s.
Proof.
  intros Hs Hout Hno. rewrite <- elem_of_decrypted_ids in Hno.
  destruct (records_invariant s Hs k) as (Hrec & Hrev & _).
  assert (Hnone : decryptedContributions s !! k = None).
  { destruct (decryptedContributions s !! k) as [c|] eqn:E; [|reflexivity].
    exfalso. apply Hno, Hrev. unfold decryptedContributions_at. rewrite E; cbn.
    apply (Hrec c eq_refl Hout). }
  assert (Htot : encryptedContributionTotals s !! k = None).
  { apply eq_None_not_Some. rewrite (totals_invariant s Hs k). exact Hno. }
  unfold getDecryptedContribution, getEncryptedContributionTotal.
  unfold mbind, mret, M_bind, M_ret, bind, ret, get,
    decryptedContributions_at, encryptedContributionTotals_at.
  rewrite Hnone, Htot. split; reflexivity.
Qed.

(** X2.  In a reachable state the [participantId] that
    [getDecryptedContribution] reports for [k] is [k] itself when [k] is one
    of the submitted identifiers 1 .. [updateCount], and 0 otherwise, also
    when the record of a never-submitted [k] has been revealed. *)
Theorem reported_participantId (s : State) (k : uint256) :
  reachable s ->
  DecryptedContribution.participantId (decryptedContributions_at s k) =
  if (1 <=? k) && (k <=? updateCount s) then k else 0.
Proof.
  intros Hs.
  destruct ((1 <=? k) && (k <=? updateCount s)) eqn:Hb.
  - assert (Hin : 1 <= k <= updateCount s) by lia.
    destruct (ledgers_range s Hs k) as [Hex _].
    destruct (Hex Hin) as [_ (c & Hc & Hpid)].
    unfold decryptedContributions_at. rewrite Hc. exact Hpid.
  - assert (Hout : ~ (1 <= k <= updateCount s)) by lia.
    destruct (records_invariant s Hs k) as (Hrec & _ & _).
    unfold decryptedContributions_at.
    destruct (decryptedContributions s !! k) as [c|] eqn:E; cbn; [|reflexivity].
    apply (Hrec c eq_refl Hout).
Qed.

(** X3.  In a reachable state a record is revealed only if a callback was
    accepted for it: its [ContributionDecrypted] is in the log, its
    identifier is not 0, and an aggregate total is stored for it. *)
Theorem revealed_record_was_accepted (s : State) (k : uint256) :
  reachable s ->
  DecryptedContribution.isRevealed (decryptedContributions_at s k) = true ->
  ContributionDecrypted k ∈ events s /\
  k <> 0 /\
  is_Some (encryptedContributionTotals s !! k).
Proof.
  intros Hs Hrev.
  destruct (records_invariant s Hs k) as (_ & Hlog & _).
  destruct (records_invariant s Hs 0) as (_ & _ & Hzero).
  pose proof (Hlog Hrev) as Hk.
  split; [apply elem_of_decrypted_ids, Hk|]. split.
  - intros ->. unfold decryptedContributions_at in Hrev. rewrite Hzero in Hrev.
    discriminate.
  - apply (totals_invariant s Hs k), Hk.
Qed.

(** ** What later transactions cannot undo *)

Lemma revealed_step s c k :
  1 <= k <= updateCount s ->
  DecryptedContribution.isRevealed (decryptedContributions_at s k) = true ->
  DecryptedContribution.isRevealed (decryptedContributions_at (step s c) k) = true.
Proof.
  intros Hk Hrev. by_step_cases s c; unfold decryptedContributions_at in *; cbn; auto.
  - rewrite lookup_insert_ne by lia. exact Hrev.
  - destruct (decide (k = u)) as [->|Hne].
    + rewrite lookup_insert_eq. reflexivity.
    + rewrite lookup_insert_ne by congruence. exact Hrev.
Qed.

Lemma update_step s c k :
  1 <= k <= updateCount s ->
  encryptedUpdates (step s c) !! k = encryptedUpdates s !! k.
Proof.
  intros Hk. by_step_cases s c; cbn; auto.
  apply lookup_insert_ne. lia.
Qed.

(** X4.  For a submitted identifier the reveal is final: once the record of
    [k] (with 1 <= k <= [updateCount]) is revealed, it stays revealed through
    every later sequence of transactions, and [requestUpdateDecryption(k)]
    fails with "Already decrypted" in each of those states. *)
Theorem reveal_is_final (s : State) (k : uint256) (calls : list Call) :
  1 <= k <= updateCount s ->
  DecryptedContribution.isRevealed (decryptedContributions_at s k) = true ->
  DecryptedContribution.isRevealed (decryptedContributions_at (run calls s) k) = true /\
  requestUpdateDecryption k (run calls s) = Revert AlreadyRevealed (run calls s).
Proof.
  intros Hk Hrev.
  assert (Hlater : DecryptedContribution.isRevealed
                     (decryptedContributions_at (run calls s) k) = true).
  { revert s Hk Hrev. induction calls as [|c calls IH]; intros s Hk Hrev; [exact Hrev|].
    rewrite run_cons. apply IH.
    - pose proof (updateCount_step s c). lia.
    - apply revealed_step; assumption. }
  split; [exact Hlater|].
  rewrite requestUpdateDecryption_unfold, Hlater. reflexivity.
Qed.

(** X5.  A submitted update is never rewritten: after a successful
    [submitEncryptedUpdate(w, m)] at time [ts] that allocated [newId], every
    later sequence of transactions leaves
    [encryptedUpdates[newId] = (newId, w, m, ts)]. *)
Theorem submitted_update_is_immutable
    (s s1 : State) (w m ts : Z) (calls : list Call) :
  0 <= updateCount s ->
  submitEncryptedUpdate w m ts s = Ok tt s1 ->
  encryptedUpdates_at (run calls s1) (updateCount s + 1) =
  EncryptedModelUpdate.mk (updateCount s + 1) w m ts.
Proof.
  intros Hpos Hsub. rewrite submitEncryptedUpdate_unfold in Hsub.
  destruct (updateCount s + 1 <=? MAX_UINT256); [|discriminate].
  injection Hsub as <-.
  set (s1 := mkState _ _ _ _ _ _ _ _).
  assert (Hkeep : forall calls' s', 1 <= updateCount s + 1 <= updateCount s' ->
            encryptedUpdates (run calls' s') !! (updateCount s + 1) =
            encryptedUpdates s' !! (updateCount s + 1)).
  { induction calls' as [|c calls' IH]; intros s' Hk; [reflexivity|].
    rewrite run_cons, IH.
    - apply update_step. exact Hk.
    - pose proof (updateCount_step s' c). lia. }
  unfold encryptedUpdates_at. rewrite Hkeep.
  - unfold s1; cbn. rewrite lookup_insert_eq. reflexivity.
  - unfold s1; cbn. lia.
Qed.

(** X6.  What a request identifier resolves to is changed by nothing but a
    request that obtains the same identifier again: over any sequence of
    transactions in which the library does not hand out [r], the tracker
    reads the same target for [r] at the end as at the start; callbacks, in
    particular, consume nothing. *)
Theorem request_keeps_its_target (s : State) (calls : list Call) (r : uint256) :
  r ∉ issued calls s ->
  requestToUpdateId_at (run calls s) r = requestToUpdateId_at s r.
Proof.
  intros Hnot. unfold requestToUpdateId_at. f_equal.
  revert s Hnot. induction calls as [|c calls IH]; intros s Hnot; [reflexivity|].
  cbn in Hnot. apply not_elem_of_app in Hnot as [Hc Hrest].
  rewrite run_cons, (IH _ Hrest).
  destruct (step_tracker s c r) as [Heq | Hiss]; [exact Heq|].
  rewrite Hiss in Hc. exfalso. apply Hc. left.
Qed.

(** ** Calls that change nothing *)

(** X7.  The callback of the total lane and the three read functions never
    change the state, whatever their arguments and whether or not the
    callback succeeds; a successful [decryptTotalContribution] returns in the
    state it was called in. *)
Theorem total_callback_and_reads_change_nothing
    (s : State) (requestId updateId : uint256) (cleartexts proof : bytes) :
  step s (call_decryptTotalContribution requestId cleartexts proof) = s /\
  (forall s', decryptTotalContribution requestId cleartexts proof s = Ok tt s' -> s' = s) /\
  step s (call_getDecryptedContribution updateId) = s /\
  step s (call_getEncryptedContributionTotal updateId) = s /\
  step s call_updateCount = s.
Proof.
  split; [|split; [|repeat split]].
  - unfold step, transact. rewrite dispatch_unfold, decryptTotalContribution_unfold.
    destruct (FHE_checkSignatures _ _ _ _); [|reflexivity].
    destruct (abi_decode_uint32 _); reflexivity.
  - intros s'. rewrite decryptTotalContribution_unfold.
    destruct (FHE_checkSignatures _ _ _ _); [|discriminate].
    destruct (abi_decode_uint32 _); [|discriminate]. congruence.
Qed.

(** ** Bounds and malformed payloads *)

(** X8.  On a counter that is a [uint256], [submitEncryptedUpdate] reverts
    exactly when [updateCount] has reached 2^256 - 1; the revert is the
    arithmetic panic 0x11 and nothing has been written. *)
Theorem submit_overflow (s : State) (w m ts : Z) :
  0 <= updateCount s <= MAX_UINT256 ->
  (submitEncryptedUpdate w m ts s = Revert (Panic 17) s <-> updateCount s = MAX_UINT256) /\
  (updateCount s <> MAX_UINT256 -> exists s', submitEncryptedUpdate w m ts s = Ok tt s').
Proof.
  intros Hrange. rewrite submitEncryptedUpdate_unfold.
  destruct (Z.leb_spec (updateCount s + 1) MAX_UINT256) as [Hle | Hgt]; cbn.
  - split; [split; [discriminate | lia]|]. eauto.
  - split; [split; [lia | reflexivity]|]. lia.
Qed.

(** X9.  A callback of the individual lane that passes the tracker and the
    verifier still fails, with nothing written, when its cleartexts are
    malformed: with [DecodeFailed] when they do not decode as [uint32[]], and
    with the index panic 0x32 when they decode to the empty array. *)
Theorem decryptContribution_malformed_cleartexts
    (s : State) (requestId : uint256) (cleartexts proof : bytes) :
  requestToUpdateId_at s requestId <> 0 ->
  FHE_checkSignatures requestId cleartexts proof (oracle s) = true ->
  (abi_decode_uint32_array cleartexts = None ->
   decryptContribution requestId cleartexts proof s = Revert DecodeFailed s) /\
  (abi_decode_uint32_array cleartexts = Some [] ->
   decryptContribution requestId cleartexts proof s = Revert (Panic 50) s).
Proof.
  intros HX Hsig. rewrite decryptContribution_unfold; cbn.
  destruct (Z.eqb_spec (requestToUpdateId_at s requestId) 0) as [|_]; [contradiction|].
  rewrite Hsig. split; intros ->; reflexivity.
Qed.

(** ** Identifier 0 and pending requests *)

(** X11.  Identifier 0 doubles as the tracker's "no entry" value.  In every
    reachable state the record of 0 is unrevealed and no total is stored for
    0, and a callback whose request the tracker resolves to 0, be it absent
    or tracked for identifier 0, is rejected with [UnknownRequest] whatever
    the cleartexts and the proof. *)
Theorem identifier_zero_cannot_be_revealed (s : State) :
  reachable s ->
  DecryptedContribution.isRevealed (decryptedContributions_at s 0) = false /\
  encryptedContributionTotals s !! 0 = None /\
  forall r cleartexts proof,
    requestToUpdateId_at s r = 0 ->
    decryptContribution r cleartexts proof s = Revert UnknownRequest s /\
    transact (call_decryptContribution r cleartexts proof) s = (inr UnknownRequest, s).
Proof.
  intros Hs.
  destruct (records_invariant s Hs 0) as (_ & _ & Hzero).
  split; [unfold decryptedContributions_at; rewrite Hzero; reflexivity|].
  split; [apply totals_zero_unwritten; exact Hs|].
  intros r cleartexts proof Hr.
  pose proof (decryptContribution_unresolved s r cleartexts proof Hr) as Hbody.
  split; [exact Hbody|].
  apply (transact_revert _ _ _ s). rewrite dispatch_unfold, Hbody. reflexivity.
Qed.

Lemma step_requestUpdateDecryption s k r o' :
  DecryptedContribution.isRevealed (decryptedContributions_at s k) = false ->
  FHE_requestDecryption
    [FHE_toBytes32 (EncryptedModelUpdate.encryptedWeights (encryptedUpdates_at s k));
     FHE_toBytes32 (EncryptedModelUpdate.encryptedMetrics (encryptedUpdates_at s k))]
    decryptContribution_selector (oracle s) = Some (r, o') ->
  step s (call_requestUpdateDecryption k) =
  mkState (updateCount s) (encryptedUpdates s) (decryptedContributions s)
    (encryptedContributionTotals s) (participantList s)
    (<[r := k]> (requestToUpdateId s)) o' (events s ++ [DecryptionRequested k]).
Proof.
  intros Hnot Hreq. unfold step, transact.
  rewrite dispatch_unfold, requestUpdateDecryption_unfold, Hnot; cbn.
  rewrite Hreq. reflexivity.
Qed.

(** X13.  Nothing stops a second request while the first is pending.  For
    an unrevealed identifier [k], when the library grants two requests in a
    row with distinct identifiers [r1] and [r2], two consecutive calls of
    [requestUpdateDecryption(k)] both succeed: the tracker resolves [r1] and
    [r2] to [k], and [DecryptionRequested(k)] is logged twice. *)
Theorem second_pending_request_is_granted
    (s : State) (k r1 r2 : uint256) (o1 o2 : OracleState) :
  DecryptedContribution.isRevealed (decryptedContributions_at s k) = false ->
  let ciphertexts :=
    [FHE_toBytes32 (EncryptedModelUpdate.encryptedWeights (encryptedUpdates_at s k));
     FHE_toBytes32 (EncryptedModelUpdate.encryptedMetrics (encryptedUpdates_at s k))] in
  FHE_requestDecryption ciphertexts decryptContribution_selector (oracle s) = Some (r1, o1) ->
  FHE_requestDecryption ciphertexts decryptContribution_selector o1 = Some (r2, o2) ->
  r1 <> r2 ->
  let s1 := step s (call_requestUpdateDecryption k) in
  let s2 := step s1 (call_requestUpdateDecryption k) in
  transact (call_requestUpdateDecryption k) s = (inl ret_nothing, s1) /\
  transact (call_requestUpdateDecryption k) s1 = (inl ret_nothing, s2) /\
  requestToUpdateId_at s2 r1 = k /\
  requestToUpdateId_at s2 r2 = k /\
  events s2 = events s ++ [DecryptionRequested k; DecryptionRequested k].
Proof.
  intros Hnot ciphertexts Hreq1 Hreq2 Hr s1 s2.
  assert (Hs1 : s1 = mkState (updateCount s) (encryptedUpdates s) (decryptedContributions s)
                  (encryptedContributionTotals s) (participantList s)
                  (<[r1 := k]> (requestToUpdateId s)) o1
                  (events s ++ [DecryptionRequested k])).
  { apply step_requestUpdateDecryption; assumption. }
  assert (Hs2 : s2 = mkState (updateCount s1) (encryptedUpdates s1) (decryptedContributions s1)
                  (encryptedContributionTotals s1) (participantList s1)
                  (<[r2 := k]> (requestToUpdateId s1)) o2
                  (events s1 ++ [DecryptionRequested k])).
  { apply step_requestUpdateDecryption; rewrite Hs1; assumption. }
  assert (Htx : forall st, transact (call_requestUpdateDecryption k) st =
                  (inl ret_nothing, step st (call_requestUpdateDecryption k)) \/
                  step st (call_requestUpdateDecryption k) = st).
  { intros st. unfold step, transact.
    destruct (dispatch (call_requestUpdateDecryption k) st) as [[] st'|e st'] eqn:E;
      try (right; reflexivity); try (left; reflexivity);
      rewrite dispatch_unfold in E;
      destruct (requestUpdateDecryption k st); discriminate. }
  assert (Hne1 : s1 <> s).
  { rewrite Hs1. intros Heq. apply (f_equal events) in Heq. cbn in Heq.
    apply (f_equal length) in Heq. rewrite length_app in Heq. cbn in Heq. lia. }
  assert (Hne2 : s2 <> s1).
  { rewrite Hs2. intros Heq. apply (f_equal events) in Heq. cbn in Heq.
    apply (f_equal length) in Heq. rewrite length_app in Heq. cbn in Heq. lia. }
  split; [destruct (Htx s) as [Hok | Hsame]; [exact Hok | contradiction]|].
  split; [destruct (Htx s1) as [Hok | Hsame]; [exact Hok | contradiction]|].
  rewrite Hs2, Hs1; unfold requestToUpdateId_at; cbn.
  rewrite lookup_insert_ne by congruence. rewrite !lookup_insert_eq.
  rewrite <- app_assoc. repeat split.
Qed.

(** ** Values and requests behind the records *)

(** X16.  In a reachable state an unrevealed record carries no value:
    whenever [getDecryptedContribution(k)] reports [isRevealed = false], the
    [shapleyValue] it reports is 0. *)
Theorem unrevealed_value_is_zero (s : State) (k : uint256) :
  reachable s ->
  DecryptedContribution.isRevealed (decryptedContributions_at s k) = false ->
  DecryptedContribution.shapleyValue (decryptedContributions_at s k) = 0.
Proof.
  intros Hs. revert k. pattern s. revert s Hs. apply reachable_induction.
  - intros o k _. reflexivity.
  - intros s c _ IH k. specialize (IH k).
    by_step_cases s c; unfold decryptedContributions_at in *; cbn; auto.
    + destruct (decide (k = updateCount s + 1)) as [->|Hne].
      * rewrite lookup_insert_eq. reflexivity.
      * rewrite lookup_insert_ne by congruence. exact IH.
    + destruct (decide (k = u)) as [->|Hne].
      * rewrite lookup_insert_eq; cbn. discriminate.
      * rewrite lookup_insert_ne by congruence. exact IH.
Qed.

(** [step_cases] with the origin of the two tracker-dependent shapes: a
    request of the total lane found an initialised total, and an accepted
    callback found its target in the tracker. *)
Lemma step_cases_origin s c :
  step s c = s
  \/ (exists w m ts,
        step s c =
          mkState (updateCount s + 1)
            (<[updateCount s + 1 :=
                 EncryptedModelUpdate.mk (updateCount s + 1) w m ts]> (encryptedUpdates s))
            (<[updateCount s + 1 :=
                 DecryptedContribution.mk (updateCount s + 1) 0 false]>
               (decryptedContributions s))
            (encryptedContributionTotals s) (participantList s) (requestToUpdateId s)
            (oracle s) (events s ++ [UpdateSubmitted (updateCount s + 1) ts]))
  \/ (exists updateId reqId o',
        step s c =
          mkState (updateCount s) (encryptedUpdates s) (decryptedContributions s)
            (encryptedContributionTotals s) (participantList s)
            (<[reqId := updateId]> (requestToUpdateId s))
            o' (events s ++ [DecryptionRequested updateId]))
  \/ (exists updateId reqId o',
        FHE_isInitialized (encryptedContributionTotals_at s updateId) = true /\
        step s c =
          mkState (updateCount s) (encryptedUpdates s) (decryptedContributions s)
            (encryptedContributionTotals s) (participantList s)
            (<[reqId := updateId]> (requestToUpdateId s))
            o' (events s))
  \/ (exists requestId r0,
        requestToUpdateId_at s requestId <> 0 /\
        step s c = accept (requestToUpdateId_at s requestId) r0 s).
Proof.
  unfold step, transact. rewrite dispatch_unfold. destruct c; cbn; auto.
  - rewrite submitEncryptedUpdate_unfold.
    destruct (updateCount s + 1 <=? MAX_UINT256); cbn; auto.
    right; left. exists encryptedWeights, encryptedMetrics, block_timestamp. reflexivity.
  - rewrite requestUpdateDecryption_unfold.
    destruct (DecryptedContribution.isRevealed _); cbn; auto.
    destruct (FHE_requestDecryption _ _ _) as [[reqId o']|]; cbn; auto.
    right; right; left. exists updateId, reqId, o'. reflexivity.
  - rewrite decryptContribution_unfold; cbn.
    destruct (Z.eqb_spec (requestToUpdateId_at s requestId) 0) as [|Hne]; cbn; auto.
    destruct (FHE_checkSignatures _ _ _ _); cbn; auto.
    destruct (abi_decode_uint32_array _) as [results|]; cbn; auto.
    destruct (results !! 0%nat) as [r0|]; cbn; auto.
    right; right; right; right. exists requestId, r0. auto.
  - rewrite requestContributionTotalDecryption_unfold; cbn.
    destruct (FHE_isInitialized _) eqn:Hinit; cbn; auto.
    destruct (FHE_requestDecryption _ _ _) as [[reqId o']|]; cbn; auto.
    right; right; right; left. exists updateId, reqId, o'. auto.
  - rewrite decryptTotalContribution_unfold.
    destruct (FHE_checkSignatures _ _ _ _); cbn; auto.
    destruct (abi_decode_uint32 _); cbn; auto.
Qed.

(** ** The participant index *)

Lemma first_occurrences_snoc l x :
  first_occurrences (l ++ [x]) =
  if decide (x ∈ first_occurrences l) then first_occurrences l
  else first_occurrences l ++ [x].
Proof. unfold first_occurrences. rewrite foldl_snoc. reflexivity. Qed.

Lemma elem_of_first_occurrences l x : x ∈ first_occurrences l <-> x ∈ l.
Proof.
  induction l as [|y l IH] using rev_ind; [reflexivity|].
  rewrite first_occurrences_snoc, elem_of_app, list_elem_of_singleton.
  destruct (decide (y ∈ first_occurrences l)) as [Hin | Hnot].
  - rewrite IH. split; [tauto|]. intros [H | ->]; [exact H | apply IH, Hin].
  - rewrite elem_of_app, list_elem_of_singleton, IH. tauto.
Qed.

Lemma NoDup_first_occurrences l : NoDup (first_occurrences l).
Proof.
  induction l as [|y l IH] using rev_ind; [constructor|].
  rewrite first_occurrences_snoc.
  destruct (decide (y ∈ first_occurrences l)) as [Hin | Hnot]; [exact IH|].
  apply NoDup_app. split; [exact IH|]. split; [|apply NoDup_singleton].
  intros x Hx Hy. apply list_elem_of_singleton in Hy as ->. contradiction.
Qed.

Section InitialisedHandles.
(** Two facts about the library: the zero handle is the uninitialised one,
    and an addition returns an initialised handle. *)
Hypothesis zero_uninitialised : FHE_isInitialized 0 = false.
Hypothesis add_initialised : forall a b, FHE_isInitialized (FHE_add a b) = true.

Lemma stored_totals_initialised s :
  reachable s ->
  forall k h, encryptedContributionTotals s !! k = Some h -> FHE_isInitialized h = true.
Proof.
  intros Hs. pattern s. revert s Hs. apply reachable_induction.
  - intros o k h; cbn. rewrite lookup_empty. discriminate.
  - intros s c _ IH k h. by_step_cases s c; cbn; try apply IH.
    destruct (decide (k = u)) as [->|Hne].
    + rewrite lookup_insert_eq. intros [= <-]. apply add_initialised.
    + rewrite lookup_insert_ne by congruence. apply IH.
Qed.

Lemma total_initialised_iff s k :
  reachable s ->
  FHE_isInitialized (encryptedContributionTotals_at s k) = true <->
  k ∈ decrypted_ids (events s).
Proof.
  intros Hs. rewrite <- (totals_invariant s Hs k). unfold encryptedContributionTotals_at.
  destruct (encryptedContributionTotals s !! k) as [h|] eqn:E; cbn.
  - split; [eauto|]. intros _. eapply stored_totals_initialised; eassumption.
  - rewrite zero_uninitialised. split; [discriminate|]. intros [? ?]; discriminate.
Qed.

Lemma participantList_invariant s :
  reachable s ->
  participantList s = first_occurrences (decrypted_ids (events s)).
Proof.
  intros Hs. pattern s. revert s Hs. apply reachable_induction.
  - reflexivity.
  - intros s c Hs IH. pose proof (total_initialised_iff s) as Hinit.
    by_step_cases s c; unfold decrypted_ids in *; cbn;
      rewrite ?omap_app; cbn; rewrite ?app_nil_r; auto.
    fold (decrypted_ids (events s)) in *. rewrite first_occurrences_snoc, <- IH.
    specialize (Hinit u Hs). rewrite <- elem_of_first_occurrences, <- IH in Hinit.
    destruct (decide (u ∈ participantList s)) as [Hin | Hnot].
    + apply Hinit in Hin. rewrite Hin. reflexivity.
    + destruct (FHE_isInitialized (encryptedContributionTotals_at s u)); [|reflexivity].
      exfalso. apply Hnot, Hinit. reflexivity.
Qed.

(** X14.  With a library whose zero handle is uninitialised and whose
    additions return initialised handles, in every reachable state the
    participant index lists the identifiers that had a callback accepted, each
    exactly once, in the order of their first acceptance; they are exactly
    the identifiers for which a total is stored. *)
Theorem participantList_lists_first_reveals (s : State) :
  reachable s ->
  participantList s = first_occurrences (decrypted_ids (events s)) /\
  NoDup (participantList s) /\
  forall k, k ∈ participantList s <-> is_Some (encryptedContributionTotals s !! k).
Proof.
  intros Hs. pose proof (participantList_invariant s Hs) as Hlist.
  split; [exact Hlist|]. split.
  - rewrite Hlist. apply NoDup_first_occurrences.
  - intros k. rewrite Hlist, elem_of_first_occurrences. symmetry.
    apply totals_invariant. exact Hs.
Qed.

(** X15.  With such a library, in every reachable state
    [requestContributionTotalDecryption(k)] fails with "Update not found",
    leaving the state as it was, exactly when no callback has been accepted
    for [k]; once one has, the request gets past that check and its outcome
    is the library's. *)
Theorem total_request_not_found_iff (s : State) (k : uint256) :
  reachable s ->
  (requestContributionTotalDecryption k s = Revert NotFound s <->
   ContributionDecrypted k ∉ events s) /\
  (ContributionDecrypted k ∈ events s ->
   requestContributionTotalDecryption k s =
   match FHE_requestDecryption [FHE_toBytes32 (encryptedContributionTotals_at s k)]
           decryptTotalContribution_selector (oracle s) with
   | Some (r, o') =>
       Ok tt (mkState (updateCount s) (encryptedUpdates s) (decryptedContributions s)
                (encryptedContributionTotals s) (participantList s)
                (<[r := k]> (requestToUpdateId s)) o' (events s))
   | None => Revert RequestRejected s
   end).
Proof.
  intros Hs. pose proof (total_initialised_iff s k Hs) as Hinit.
  rewrite elem_of_decrypted_ids in Hinit.
  rewrite requestContributionTotalDecryption_unfold; cbn.
  destruct (FHE_isInitialized (encryptedContributionTotals_at s k)) eqn:E.
  - assert (Hin : ContributionDecrypted k ∈ events s) by (apply Hinit; reflexivity).
    split; [|reflexivity]. split; [|contradiction].
    destruct (FHE_requestDecryption _ _ _) as [[r o']|]; discriminate.
  - assert (Hno : ContributionDecrypted k ∉ events s).
    { intros Hin. apply Hinit in Hin. discriminate. }
    split; [tauto | contradiction].
Qed.

Lemma initialised_total_was_revealed s k :
  reachable s ->
  FHE_isInitialized (encryptedContributionTotals_at s k) = true ->
  ContributionDecrypted k ∈ events s.
Proof.
  intros Hs Hinit. apply elem_of_decrypted_ids, (totals_invariant s Hs k).
  unfold encryptedContributionTotals_at in Hinit.
  destruct (encryptedContributionTotals s !! k) as [h|]; cbn in Hinit; [eauto|].
  rewrite zero_uninitialised in Hinit. discriminate.
Qed.

Lemma requests_behind_tracker s :
  reachable s ->
  (forall r k, requestToUpdateId s !! r = Some k -> k <> 0 ->
     DecryptionRequested k ∈ events s) /\
  (forall k, ContributionDecrypted k ∈ events s -> DecryptionRequested k ∈ events s).
Proof.
  intros Hs. pattern s. revert s Hs. apply reachable_induction.
  - intros o; cbn. split.
    + intros r k. rewrite lookup_empty. discriminate.
    + intros k H. apply elem_of_nil in H. contradiction.
  - intros s c Hs [IHtr IHlog].
    destruct (step_cases_origin s c) as
      [-> | [(w & m & ts & ->) | [(u & r & o' & ->) |
      [(u & r & o' & Hinit & ->) | (rid & r0 & Hrid & ->)]]]]; cbn.
    + split; assumption.
    + split.
      * intros r k Hr Hk. apply elem_of_app. left. eapply IHtr; eassumption.
      * intros k Hk. apply elem_of_app in Hk as [Hk | Hk].
        -- apply elem_of_app. left. apply IHlog, Hk.
        -- apply list_elem_of_singleton in Hk. discriminate.
    + split.
      * intros r' k Hr Hk. apply elem_of_app. destruct (decide (r = r')) as [->|Hne].
        -- rewrite lookup_insert_eq in Hr. injection Hr as ->. right.
           apply list_elem_of_singleton. reflexivity.
        -- rewrite lookup_insert_ne in Hr by congruence. left. eapply IHtr; eassumption.
      * intros k Hk. apply elem_of_app in Hk as [Hk | Hk].
        -- apply elem_of_app. left. apply IHlog, Hk.
        -- apply list_elem_of_singleton in Hk. discriminate.
    + split; [|exact IHlog].
      intros r' k Hr Hk. destruct (decide (r = r')) as [->|Hne].
      * rewrite lookup_insert_eq in Hr. injection Hr as ->.
        apply IHlog, (initialised_total_was_revealed s k Hs), Hinit.
      * rewrite lookup_insert_ne in Hr by congruence. eapply IHtr; eassumption.
    + assert (Hreq : DecryptionRequested (requestToUpdateId_at s rid) ∈ events s).
      { unfold requestToUpdateId_at in *.
        destruct (requestToUpdateId s !! rid) as [k|] eqn:E; cbn in *; [|contradiction].
        eapply IHtr; eassumption. }
      split.
      * intros r k Hr Hk. apply elem_of_app. left. eapply IHtr; eassumption.
      * intros k Hk. apply elem_of_app. left.
        apply elem_of_app in Hk as [Hk | Hk]; [apply IHlog, Hk|].
        apply list_elem_of_singleton in Hk. injection Hk as ->. exact Hreq.
Qed.

(** X17.  With such a library, every accepted callback traces back to a
    request of the individual lane: in a reachable state, when
    [decryptContribution] succeeds for a request that resolves to [k], a
    [DecryptionRequested(k)] is already in the log; so every
    [ContributionDecrypted(k)] in the log comes with a [DecryptionRequested(k)]. *)
Theorem accepted_callback_follows_request
    (s s' : State) (requestId : uint256) (cleartexts proof : bytes) :
  reachable s ->
  decryptContribution requestId cleartexts proof s = Ok tt s' ->
  DecryptionRequested (requestToUpdateId_at s requestId) ∈ events s /\
  (forall k, ContributionDecrypted k ∈ events s' -> DecryptionRequested k ∈ events s').
Proof.
  intros Hs Hok.
  destruct (decryptContribution_Ok_inv _ _ _ _ _ Hok) as (r0 & rest & HX & _ & _ & Hs').
  destruct (requests_behind_tracker s Hs) as [Htr _].
  split.
  - unfold requestToUpdateId_at in *.
    destruct (requestToUpdateId s !! requestId) as [k|] eqn:E; cbn in *; [|contradiction].
    eapply Htr; eassumption.
  - apply requests_behind_tracker.
    assert (Hstep : s' = step s (call_decryptContribution requestId cleartexts proof)).
    { unfold step, transact. rewrite dispatch_unfold, Hok. reflexivity. }
    rewrite Hstep. apply reachable_step, Hs.
Qed.

End InitialisedHandles.

(** ** Targets of the tracker *)

(** [step_cases] with what the library granted: a request of the individual
    lane was granted for the two handles stored under its target, a request
    of the total lane found an initialised total, and an accepted callback
    found its target in the tracker. *)
Lemma step_cases_granted s c :
  step s c = s
  \/ (exists w m ts,
        step s c =
          mkState (updateCount s + 1)
            (<[updateCount s + 1 :=
                 EncryptedModelUpdate.mk (updateCount s + 1) w m ts]> (encryptedUpdates s))
            (<[updateCount s + 1 :=
                 DecryptedContribution.mk (updateCount s + 1) 0 false]>
               (decryptedContributions s))
            (encryptedContributionTotals s) (participantList s) (requestToUpdateId s)
            (oracle s) (events s ++ [UpdateSubmitted (updateCount s + 1) ts]))
  \/ (exists updateId reqId o',
        FHE_requestDecryption
          [FHE_toBytes32
             (EncryptedModelUpdate.encryptedWeights (encryptedUpdates_at s updateId));
           FHE_toBytes32
             (EncryptedModelUpdate.encryptedMetrics (encryptedUpdates_at s updateId))]
          decryptContribution_selector (oracle s) = Some (reqId, o') /\
        step s c =
          mkState (updateCount s) (encryptedUpdates s) (decryptedContributions s)
            (encryptedContributionTotals s) (participantList s)
            (<[reqId := updateId]> (requestToUpdateId s))
            o' (events s ++ [DecryptionRequested updateId]))
  \/ (exists updateId reqId o',
        FHE_isInitialized (encryptedContributionTotals_at s updateId) = true /\
        step s c =
          mkState (updateCount s) (encryptedUpdates s) (decryptedContributions s)
            (encryptedContributionTotals s) (participantList s)
            (<[reqId := updateId]> (requestToUpdateId s))
            o' (events s))
  \/ (exists requestId r0,
        requestToUpdateId_at s requestId <> 0 /\
        step s c = accept (requestToUpdateId_at s requestId) r0 s).
Proof.
  unfold step, transact. rewrite dispatch_unfold. destruct c; cbn; auto.
  - rewrite submitEncryptedUpdate_unfold.
    destruct (updateCount s + 1 <=? MAX_UINT256); cbn; auto.
    right; left. exists encryptedWeights, encryptedMetrics, block_timestamp. reflexivity.
  - rewrite requestUpdateDecryption_unfold.
    destruct (DecryptedContribution.isRevealed _); cbn; auto.
    destruct (FHE_requestDecryption _ _ _) as [[reqId o']|] eqn:Hreq; cbn; auto.
    right; right; left. exists updateId, reqId, o'. auto.
  - rewrite decryptContribution_unfold; cbn.
    destruct (Z.eqb_spec (requestToUpdateId_at s requestId) 0) as [|Hne]; cbn; auto.
    destruct (FHE_checkSignatures _ _ _ _); cbn; auto.
    destruct (abi_decode_uint32_array _) as [results|]; cbn; auto.
    destruct (results !! 0%nat) as [r0|]; cbn; auto.
    right; right; right; right. exists requestId, r0. auto.
  - rewrite requestContributionTotalDecryption_unfold; cbn.
    destruct (FHE_isInitialized _) eqn:Hinit; cbn; auto.
    destruct (FHE_requestDecryption _ _ _) as [[reqId o']|]; cbn; auto.
    right; right; right; left. exists updateId, reqId, o'. auto.
  - rewrite decryptTotalContribution_unfold.
    destruct (FHE_checkSignatures _ _ _ _); cbn; auto.
    destruct (abi_decode_uint32 _); cbn; auto.
Qed.

Section RefusedZeroHandles.
(** Two facts about the library: the zero handle is the uninitialised one,
    and a decryption request for two zero handles is refused. *)
Hypothesis zero_uninitialised : FHE_isInitialized 0 = false.
Hypothesis zero_handles_refused :
  forall sel o, FHE_requestDecryption [FHE_toBytes32 0; FHE_toBytes32 0] sel o = None.

Lemma targets_are_submitted s :
  reachable s ->
  (forall r X, requestToUpdateId s !! r = Some X -> 1 <= X <= updateCount s) /\
  (forall X, is_Some (encryptedContributionTotals s !! X) -> 1 <= X <= updateCount s).
Proof.
  intros Hs. pattern s. revert s Hs. apply reachable_induction.
  - intros o; cbn. split.
    + intros r X. rewrite lookup_empty. discriminate.
    + intros X [h Hh]. rewrite lookup_empty in Hh. discriminate.
  - intros s c Hs [IHtr IHtot].
    destruct (step_cases_granted s c) as
      [-> | [(w & m & ts & ->) | [(u & r & o' & Hreq & ->) |
      [(u & r & o' & Hinit & ->) | (rid & r0 & Hrid & ->)]]]]; cbn.
    + split; assumption.
    + split.
      * intros r X Hr. specialize (IHtr r X Hr). lia.
      * intros X HX. specialize (IHtot X HX). lia.
    + split; [|exact IHtot].
      intros r' X Hr. destruct (decide (r = r')) as [->|Hne].
      * rewrite lookup_insert_eq in Hr. injection Hr as <-.
        destruct (decide (1 <= u <= updateCount s)) as [Hin | Hout]; [exact Hin|].
        exfalso. destruct (ledgers_range s Hs u) as [_ Hnone].
        unfold encryptedUpdates_at in Hreq. rewrite (Hnone Hout) in Hreq. cbn in Hreq.
        rewrite zero_handles_refused in Hreq. discriminate.
      * rewrite lookup_insert_ne in Hr by congruence. eapply IHtr; eassumption.
    + split; [|exact IHtot].
      intros r' X Hr. destruct (decide (r = r')) as [->|Hne].
      * rewrite lookup_insert_eq in Hr. injection Hr as <-.
        apply IHtot. unfold encryptedContributionTotals_at in Hinit.
        destruct (encryptedContributionTotals s !! u) as [h|]; [eauto|].
        cbn in Hinit. rewrite zero_uninitialised in Hinit. discriminate.
      * rewrite lookup_insert_ne in Hr by congruence. eapply IHtr; eassumption.
    + assert (Htarget : 1 <= requestToUpdateId_at s rid <= updateCount s).
      { unfold requestToUpdateId_at in *.
        destruct (requestToUpdateId s !! rid) as [X|] eqn:E; cbn in *; [|contradiction].
        eapply IHtr; eassumption. }
      split; [exact IHtr|].
      intros X HX. destruct (decide (X = requestToUpdateId_at s rid)) as [->|Hne].
      * exact Htarget.
      * rewrite lookup_insert_ne in HX by congruence. apply IHtot, HX.
Qed.

(** C5.  With a library whose zero handle is uninitialised and which refuses
    to decrypt zero handles, in every reachable state every request
    identifier held by the tracker maps to one target, that target is one of
    the submitted identifiers 1 .. [updateCount], and an
    [EncryptedModelUpdate] and a [DecryptedContribution] exist for it.
    [requestUpdateDecryption] itself does not check that its argument was
    submitted: for an identifier that was not, the two handles it reads are
    zero and it is the library that turns the request down. *)
Theorem tracked_target_exists (s : State) (r X : uint256) :
  reachable s ->
  requestToUpdateId s !! r = Some X ->
  (forall X', requestToUpdateId s !! r = Some X' -> X' = X) /\
  1 <= X <= updateCount s /\
  update_exists s X /\
  record_exists s X.
Proof.
  intros Hs Hr. destruct (targets_are_submitted s Hs) as [Htr _].
  pose proof (Htr r X Hr) as Hin.
  destruct (ledgers_range s Hs X) as [Hex _].
  split; [congruence|]. split; [exact Hin|]. apply Hex, Hin.
Qed.

(** X10.  [requestUpdateDecryption] does not check that the identifier was
    submitted, and with such a library the request is refused all the same:
    in a reachable state, for [k] outside 1 .. [updateCount] the record of
    [k] is unrevealed, the two handles the call reads are zero, and the call
    reverts in [FHE.requestDecryption] with nothing written. *)
Theorem unsubmitted_request_is_refused (s : State) (k : uint256) :
  reachable s ->
  ~ (1 <= k <= updateCount s) ->
  DecryptedContribution.isRevealed (decryptedContributions_at s k) = false /\
  requestUpdateDecryption k s = Revert RequestRejected s /\
  transact (call_requestUpdateDecryption k) s = (inr RequestRejected, s).
Proof.
  intros Hs Hout.
  destruct (targets_are_submitted s Hs) as [_ Htot].
  destruct (records_invariant s Hs k) as (_ & Hlog & _).
  destruct (ledgers_range s Hs k) as [_ Hnone].
  assert (Hnot : DecryptedContribution.isRevealed (decryptedContributions_at s k) = false).
  { destruct (DecryptedContribution.isRevealed (decryptedContributions_at s k)) eqn:E;
      [|reflexivity].
    exfalso. apply Hout, Htot, (totals_invariant s Hs k), Hlog. reflexivity. }
  assert (Hbody : requestUpdateDecryption k s = Revert RequestRejected s).
  { rewrite requestUpdateDecryption_unfold, Hnot.
    unfold encryptedUpdates_at. rewrite (Hnone Hout); cbn.
    rewrite zero_handles_refused. reflexivity. }
  split; [exact Hnot|]. split; [exact Hbody|].
  apply (transact_revert _ _ _ s). rewrite dispatch_unfold, Hbody. reflexivity.
Qed.

End RefusedZeroHandles.

(** ** Callbacks for requests that were never issued *)


End Ledgers.

(** * The further properties on explicit inputs *)

Section ConcreteLedgers.
Import TestLib.

Lemma reachable_pending : reachable pending.
Proof.
  exists (0 : Z), [call_submitEncryptedUpdate 11 12 1000; call_requestUpdateDecryption 1].
  reflexivity.
Qed.

Lemma reachable_revealed : reachable revealed.
Proof.
  exists (0 : Z), [call_submitEncryptedUpdate 11 12 1000; call_requestUpdateDecryption 1;
                   call_decryptContribution 0 [x1e] (sign 0 [x1e])].
  reflexivity.
Qed.

Lemma reachable_dangling_revealed : reachable dangling_revealed.
Proof.
  exists (0 : Z), [call_requestUpdateDecryption 99;
                   call_decryptContribution 0 [x1e] (sign 0 [x1e])].
  reflexivity.
Qed.

Lemma reads_of_unknown_id_witness :
  getDecryptedContribution 99 pending = Ok (0, 0, false) pending /\
  getEncryptedContributionTotal 99 pending = Ok 0 pending.
Proof.
  apply (reads_of_unknown_id pending 99 reachable_pending).
  - change (updateCount pending) with 1. lia.
  - change (events pending) with [UpdateSubmitted 1 1000; DecryptionRequested 1].
    intros H. apply list_elem_of_In in H. cbn in H.
    repeat (destruct H as [H|H]; [discriminate H|]). exact H.
Defined.

Lemma reported_participantId_witness :
  DecryptedContribution.participantId (decryptedContributions_at dangling_revealed 99) = 0 /\
  DecryptedContribution.isRevealed (decryptedContributions_at dangling_revealed 99) = true.
Proof.
  split; [|reflexivity].
  exact (reported_participantId dangling_revealed 99 reachable_dangling_revealed).
Defined.

Lemma revealed_record_was_accepted_witness :
  ContributionDecrypted 1 ∈ events revealed /\
  1 <> 0 /\
  is_Some (encryptedContributionTotals revealed !! 1).
Proof.
  apply (revealed_record_was_accepted revealed 1 reachable_revealed). reflexivity.
Defined.

Lemma reveal_is_final_witness :
  let later := run [call_submitEncryptedUpdate 21 22 1001;
                    call_decryptContribution 0 [x05] (sign 0 [x05])] revealed in
  DecryptedContribution.isRevealed (decryptedContributions_at later 1) = true /\
  requestUpdateDecryption 1 later = Revert AlreadyRevealed later.
Proof.
  apply (reveal_is_final revealed 1).
  - change (updateCount revealed) with 1. lia.
  - reflexivity.
Defined.

Lemma submitted_update_is_immutable_witness :
  encryptedUpdates_at
    (run [call_requestUpdateDecryption 1; call_decryptContribution 0 [x1e] (sign 0 [x1e]);
          call_submitEncryptedUpdate 21 22 1001] submitted) 1 =
  EncryptedModelUpdate.mk 1 11 12 1000.
Proof.
  apply (submitted_update_is_immutable fresh submitted 11 12 1000).
  - change (updateCount fresh) with 0. lia.
  - reflexivity.
Defined.

Lemma request_keeps_its_target_witness :
  requestToUpdateId_at
    (run [call_decryptContribution 0 [x1e] (sign 0 [x1e]);
          call_submitEncryptedUpdate 21 22 1001] pending) 0 = 1.
Proof.
  rewrite (request_keeps_its_target pending).
  - reflexivity.
  - change (issued _ pending) with (@nil Z). apply not_elem_of_nil.
Defined.

Lemma submit_overflow_witness :
  submitEncryptedUpdate 11 12 1000 full = Revert (Panic 17) full.
Proof.
  destruct (submit_overflow full 11 12 1000) as [[_ Hmax] _].
  - change (updateCount full) with MAX_UINT256. unfold MAX_UINT256. lia.
  - apply Hmax. reflexivity.
Defined.

Lemma decryptContribution_malformed_cleartexts_witness :
  decryptContribution 0 [] (sign 0 []) pending = Revert (Panic 50) pending.
Proof.
  destruct (decryptContribution_malformed_cleartexts pending 0 [] (sign 0 [])) as [_ Hempty].
  - change (requestToUpdateId_at pending 0) with 1. lia.
  - reflexivity.
  - apply Hempty. reflexivity.
Defined.

Lemma identifier_zero_cannot_be_revealed_witness :
  decryptContribution 5 [x1e] (sign 5 [x1e]) pending = Revert UnknownRequest pending /\
  transact (call_decryptContribution 5 [x1e] (sign 5 [x1e])) pending
    = (inr UnknownRequest, pending).
Proof.
  destruct (identifier_zero_cannot_be_revealed pending reachable_pending) as (_ & _ & Hcb).
  apply Hcb. reflexivity.
Defined.

Lemma total_callback_and_reads_change_nothing_witness :
  step pending (call_decryptTotalContribution 0 [x05] (sign 0 [x05])) = pending /\
  step pending (call_decryptTotalContribution 7 [x05] []) = pending.
Proof.
  split.
  - apply (total_callback_and_reads_change_nothing pending 0 1 [x05] (sign 0 [x05])).
  - apply (total_callback_and_reads_change_nothing pending 7 1 [x05] []).
Defined.

Lemma unrevealed_value_is_zero_witness :
  DecryptedContribution.shapleyValue (decryptedContributions_at pending 1) = 0.
Proof.
  apply (unrevealed_value_is_zero pending 1 reachable_pending). reflexivity.
Defined.

Lemma accepted_callback_follows_request_witness :
  DecryptionRequested 1 ∈ events pending /\
  (forall k, ContributionDecrypted k ∈ events revealed ->
             DecryptionRequested k ∈ events revealed).
Proof.
  apply (accepted_callback_follows_request (Ext := lib) eq_refl
           pending revealed 0 [x1e] (sign 0 [x1e]) reachable_pending).
  reflexivity.
Defined.

End ConcreteLedgers.

Section ConcreteIndex.

Lemma OddLib_add_initialised (a b : Z) :
  @FHE_isInitialized OddLib.lib (@FHE_add OddLib.lib a b) = true.
Proof.
  cbn. unfold TestLib.isInitialized, OddLib.add.
  apply negb_true_iff, Z.eqb_neq. intros H.
  apply Z.lor_eq_0_iff in H as [_ H]. discriminate H.
Qed.

Lemma reachable_three_reveals : reachable OddLib.three_reveals.
Proof.
  exists (0 : Z),
    [call_submitEncryptedUpdate 11 12 1000; call_submitEncryptedUpdate 21 22 1001;
     call_requestUpdateDecryption 1; call_requestUpdateDecryption 2;
     call_decryptContribution 0 [x1e] (TestLib.sign 0 [x1e]);
     call_decryptContribution 1 [x07] (TestLib.sign 1 [x07]);
     call_decryptContribution 0 [x1e] (TestLib.sign 0 [x1e])].
  reflexivity.
Qed.

Lemma participantList_lists_first_reveals_witness :
  participantList OddLib.three_reveals = [1; 2] /\
  NoDup (participantList OddLib.three_reveals).
Proof.
  destruct (participantList_lists_first_reveals (Ext := OddLib.lib)
              eq_refl OddLib_add_initialised OddLib.three_reveals reachable_three_reveals)
    as (Hlist & Hnodup & _).
  split; [exact Hlist | exact Hnodup].
Defined.

Lemma total_request_not_found_iff_witness :
  requestContributionTotalDecryption 3 OddLib.three_reveals =
  Revert NotFound OddLib.three_reveals.
Proof.
  destruct (total_request_not_found_iff (Ext := OddLib.lib)
              eq_refl OddLib_add_initialised OddLib.three_reveals 3 reachable_three_reveals)
    as [[_ Hno] _].
  apply Hno.
  change (events OddLib.three_reveals) with
    [UpdateSubmitted 1 1000; UpdateSubmitted 2 1001;
     DecryptionRequested 1; DecryptionRequested 2;
     ContributionDecrypted 1; ContributionDecrypted 2; ContributionDecrypted 1].
  intros H. apply list_elem_of_In in H. cbn in H.
  repeat (destruct H as [H|H]; [discriminate H|]). exact H.
Defined.

End ConcreteIndex.

(** * The contract over a host that can refuse *)

Section Permissions.
Context `{H : Host}.

Ltac unfold_host :=
  unfold mbind, mret, M_bind, M_ret, bind, ret, get, modify, require, revert,
    index, checkSignatures, decode_uint32_array, Acl.asEuint32, Acl.add in *.

(** [Acl.decryptContribution] in closed form: the checks of lines 83-91 as
    before, then the record, then the library calls. *)
Lemma decryptContribution_host_unfold requestId cleartexts proof s :
  Acl.decryptContribution requestId cleartexts proof s =
  let updateId := requestToUpdateId_at s requestId in
  if updateId =? 0 then Revert UnknownRequest s
  else if FHE_checkSignatures requestId cleartexts proof (oracle s) then
    match abi_decode_uint32_array cleartexts with
    | None => Revert DecodeFailed s
    | Some results =>
        match results !! 0%nat with
        | None => Revert (Panic 50) s
        | Some r0 =>
            let s1 := Acl.record_revealed updateId r0 s in
            if FHE_isInitialized (encryptedContributionTotals_at s updateId)
            then Acl.accumulate updateId r0 (encryptedContributionTotals_at s updateId) s1
            else
              match host_asEuint32 0 (oracle s) with
              | None => Revert LibraryRefused s1
              | Some (zero, o1) =>
                  Acl.accumulate updateId r0 zero
                    (push_participantList updateId
                       (set_encryptedContributionTotals updateId zero (set_oracle o1 s1)))
              end
        end
    end
  else Revert VerificationFailed s.
Proof.
  unfold Acl.decryptContribution, Acl.accumulate, Acl.record_revealed. unfold_host.
  destruct (requestToUpdateId_at s requestId =? 0); cbn; [reflexivity|].
  destruct (FHE_checkSignatures _ _ _ _); cbn; [|reflexivity].
  destruct (abi_decode_uint32_array _) as [results|]; cbn; [|reflexivity].
  destruct (results !! 0%nat) as [r0|]; cbn; [|reflexivity].
  unfold decryptedContributions_at, encryptedContributionTotals_at; cbn.
  rewrite !lookup_insert_eq; cbn.
  unfold set_decryptedContributions, DecryptedContribution.set_isRevealed,
    DecryptedContribution.set_shapleyValue; cbn.
  rewrite insert_insert_eq.
  destruct (FHE_isInitialized _); cbn.
  - destruct (host_asEuint32 r0 _) as [[value o1]|]; cbn; [|reflexivity].
    destruct (host_add _ value o1) as [[sum o2]|]; reflexivity.
  - destruct (host_asEuint32 0 _) as [[zero o1]|]; cbn; [|reflexivity].
    rewrite lookup_insert_eq; cbn.
    destruct (host_asEuint32 r0 o1) as [[value o2]|]; cbn; [|reflexivity].
    destruct (host_add zero value o2) as [[sum o3]|]; reflexivity.
Qed.

(** Where the host performs both operations as the total functions of
    [External] and keeps no record of them, the two embeddings of
    [decryptContribution] agree. *)
Lemma decryptContribution_host_agrees requestId cleartexts proof s :
  (forall v o, host_asEuint32 v o = Some (FHE_asEuint32 v, o)) ->
  (forall a b o, host_add a b o = Some (FHE_add a b, o)) ->
  Acl.decryptContribution requestId cleartexts proof s =
  decryptContribution requestId cleartexts proof s.
Proof.
  intros Has Hadd.
  rewrite decryptContribution_host_unfold, decryptContribution_unfold; cbn.
  destruct (_ =? 0); [reflexivity|].
  destruct (FHE_checkSignatures _ _ _ _); [|reflexivity].
  destruct (abi_decode_uint32_array _) as [results|]; [|reflexivity].
  destruct (results !! 0%nat) as [r0|]; [|reflexivity].
  unfold Acl.accumulate, accept, Acl.record_revealed; cbn.
  destruct (FHE_isInitialized _); cbn; rewrite ?Has; cbn; rewrite ?Has, ?Hadd; cbn.
  - reflexivity.
  - unfold emit_event, set_encryptedContributionTotals, set_oracle,
      push_participantList; cbn.
    rewrite insert_insert_eq. reflexivity.
Qed.

(** ** What a transaction can do *)

Lemma host_dispatch_other c s :
  (forall requestId cleartexts proof, c <> call_decryptContribution requestId cleartexts proof) ->
  Acl.dispatch c s = dispatch c s.
Proof. intros Hc. destruct c; try reflexivity. exfalso. eapply Hc. reflexivity. Qed.

Lemma accumulate_Ok_inv X r0 t s s' :
  Acl.accumulate X r0 t s = Ok tt s' ->
  exists value o1 sum o2,
    host_asEuint32 r0 (oracle s) = Some (value, o1) /\
    host_add t value o1 = Some (sum, o2) /\
    s' = emit_event (ContributionDecrypted X)
           (set_encryptedContributionTotals X sum (set_oracle o2 s)).
Proof.
  unfold Acl.accumulate.
  destruct (host_asEuint32 r0 (oracle s)) as [[value o1]|] eqn:Hval; [|discriminate].
  destruct (host_add t value o1) as [[sum o2]|] eqn:Hsum; [|discriminate].
  intros [= <-]. exists value, o1, sum, o2. repeat split; assumption.
Qed.

Lemma accumulate_Revert_inv X r0 t s e s_at :
  Acl.accumulate X r0 t s = Revert e s_at -> e = LibraryRefused.
Proof.
  unfold Acl.accumulate.
  destruct (host_asEuint32 r0 (oracle s)) as [[value o1]|]; [|congruence].
  destruct (host_add t value o1) as [[sum o2]|]; congruence.
Qed.

(** What a successful [Acl.decryptContribution] has done. *)
Lemma decryptContribution_host_Ok_inv requestId cleartexts proof s s' :
  Acl.decryptContribution requestId cleartexts proof s = Ok tt s' ->
  let X := requestToUpdateId_at s requestId in
  exists r0 rest sum,
    X <> 0 /\
    FHE_checkSignatures requestId cleartexts proof (oracle s) = true /\
    abi_decode_uint32_array cleartexts = Some (r0 :: rest) /\
    updateCount s' = updateCount s /\
    encryptedUpdates s' = encryptedUpdates s /\
    requestToUpdateId s' = requestToUpdateId s /\
    decryptedContributions s' =
      <[X := DecryptedContribution.mk
               (DecryptedContribution.participantId (decryptedContributions_at s X)) r0 true]>
        (decryptedContributions s) /\
    encryptedContributionTotals s' = <[X := sum]> (encryptedContributionTotals s) /\
    events s' = events s ++ [ContributionDecrypted X].
Proof.
  rewrite decryptContribution_host_unfold; cbn.
  destruct (Z.eqb_spec (requestToUpdateId_at s requestId) 0) as [|HX]; [discriminate|].
  destruct (FHE_checkSignatures _ _ _ _); [|discriminate].
  destruct (abi_decode_uint32_array _) as [[|r0 rest]|]; cbn; try discriminate.
  destruct (FHE_isInitialized _).
  - intros Hacc. apply accumulate_Ok_inv in Hacc as (value & o1 & sum & o2 & _ & _ & ->).
    exists r0, rest, sum. cbn. repeat split; auto.
  - destruct (host_asEuint32 0 (oracle s)) as [[zero o1]|]; [|discriminate].
    intros Hacc. apply accumulate_Ok_inv in Hacc as (value & o2 & sum & o3 & _ & _ & ->).
    exists r0, rest, sum. cbn. rewrite insert_insert_eq. repeat split; auto.
Qed.

(** A call of [Acl.decryptContribution] that gets as far as a total that is
    already initialised. *)
Lemma decryptContribution_host_stored_total requestId cleartexts proof s r0 rest :
  requestToUpdateId_at s requestId <> 0 ->
  FHE_checkSignatures requestId cleartexts proof (oracle s) = true ->
  abi_decode_uint32_array cleartexts = Some (r0 :: rest) ->
  FHE_isInitialized
    (encryptedContributionTotals_at s (requestToUpdateId_at s requestId)) = true ->
  Acl.decryptContribution requestId cleartexts proof s =
  Acl.accumulate (requestToUpdateId_at s requestId) r0
    (encryptedContributionTotals_at s (requestToUpdateId_at s requestId))
    (Acl.record_revealed (requestToUpdateId_at s requestId) r0 s).
Proof.
  intros HX Hsig Hdec Hinit. rewrite decryptContribution_host_unfold; cbn.
  destruct (Z.eqb_spec (requestToUpdateId_at s requestId) 0) as [|_]; [contradiction|].
  rewrite Hsig, Hdec; cbn. rewrite Hinit. reflexivity.
Qed.

Lemma host_transact_single c s :
  Acl.transact [c] s =
  match Acl.dispatch c s with
  | Ok r s' => (inl [r], set_oracle (host_endTransaction (oracle s')) s')
  | Revert e _ => (inr e, s)
  end.
Proof.
  unfold Acl.transact; cbn. unfold mbind, mret, M_bind, M_ret, bind, ret.
  destruct (Acl.dispatch c s); reflexivity.
Qed.

Lemma host_transact_decryptContribution_refused requestId cleartexts proof s s_at :
  Acl.decryptContribution requestId cleartexts proof s = Revert LibraryRefused s_at ->
  Acl.transact [call_decryptContribution requestId cleartexts proof] s = (inr LibraryRefused, s).
Proof.
  intros Hrev. rewrite host_transact_single; cbn.
  unfold mbind, mret, M_bind, M_ret, bind, ret. rewrite Hrev. reflexivity.
Qed.

(** No total is ever stored under identifier 0, also in the middle of a
    transaction. *)
Lemma host_dispatch_totals_zero c s r s' :
  encryptedContributionTotals s !! 0 = None ->
  Acl.dispatch c s = Ok r s' ->
  encryptedContributionTotals s' !! 0 = None.
Proof.
  intros Hzero Hok.
  assert (Hother : dispatch c s = Ok r s' -> encryptedContributionTotals s' !! 0 = None).
  { intros Hd. assert (Hstep : step s c = s') by (unfold step, transact; rewrite Hd; reflexivity).
    destruct (step_cases s c) as [Hs | [(w & m & ts & _ & Hs) |
      [(u & q & o' & Hs) | [(u & q & o' & Hs) | (u & r0 & Hu & Hs)]]]];
      rewrite Hs in Hstep; subst s'; cbn; auto.
    rewrite lookup_insert_ne by congruence. exact Hzero. }
  destruct c; try (apply Hother; exact Hok).
  cbn in Hok. unfold mbind, mret, M_bind, M_ret, bind, ret in Hok.
  destruct (Acl.decryptContribution requestId cleartexts proof s) as [[] s0|] eqn:E;
    [|discriminate].
  injection Hok as _ <-.
  destruct (decryptContribution_host_Ok_inv _ _ _ _ _ E)
    as (r0 & rest & sum & HX & _ & _ & _ & _ & _ & _ & Htot & _).
  rewrite Htot. rewrite lookup_insert_ne by congruence. exact Hzero.
Qed.

Lemma host_call_all_totals_zero tx s rs s' :
  encryptedContributionTotals s !! 0 = None ->
  Acl.call_all tx s = Ok rs s' ->
  encryptedContributionTotals s' !! 0 = None.
Proof.
  revert s rs. induction tx as [|c tx IH]; intros s rs Hzero Hok; cbn in Hok.
  - injection Hok as _ <-. exact Hzero.
  - unfold mbind, mret, M_bind, M_ret, bind, ret in Hok.
    destruct (Acl.dispatch c s) as [r s0|] eqn:Ec; [|discriminate].
    destruct (Acl.call_all tx s0) as [rs0 s1|] eqn:Et; [|discriminate].
    injection Hok as _ <-.
    eapply IH; [|exact Et]. eapply host_dispatch_totals_zero; eassumption.
Qed.

Lemma host_totals_zero_unwritten s :
  Acl.reachable s -> encryptedContributionTotals s !! 0 = None.
Proof.
  intros (o & txs & tx & rs & Hs).
  eapply host_call_all_totals_zero; [|exact Hs].
  clear Hs. induction txs as [|tx0 txs IH] using rev_ind; [apply lookup_empty|].
  unfold Acl.run. rewrite foldl_snoc. fold (Acl.run txs (init_state o)).
  unfold Acl.step, Acl.transact.
  destruct (Acl.call_all tx0 (Acl.run txs (init_state o))) as [rs0 s0|] eqn:E; cbn.
  - eapply host_call_all_totals_zero; eassumption.
  - exact IH.
Qed.

(** ** Replays and the other lane *)

(** C3, as the code has it.  A successful [decryptContribution] leaves the
    tracker as it was: the request still resolves to the same target [X], and
    the same payload gets past the tracker, the verifier and the decoder
    again.  What the second call then does is decided by the library, on the
    total stored by the first: if it performs [FHE.add], the call succeeds,
    the record is written as revealed with the decoded value again and the
    value is added into the total of [X] once more; if it refuses (as it does
    once the transaction that created the stored total is over, the contract
    holding no lasting permission on it), the call reverts and the
    transaction leaves the state as it was. *)
Theorem replay_is_decided_by_the_library
    (s s1 : State) (requestId : uint256) (cleartexts proof : bytes) (o2 : OracleState) :
  Acl.decryptContribution requestId cleartexts proof s = Ok tt s1 ->
  let X := requestToUpdateId_at s requestId in
  FHE_isInitialized (encryptedContributionTotals_at s1 X) = true ->
  FHE_checkSignatures requestId cleartexts proof o2 = true ->
  let again := set_oracle o2 s1 in
  exists r0 rest,
    abi_decode_uint32_array cleartexts = Some (r0 :: rest) /\
    X <> 0 /\
    requestToUpdateId_at again requestId = X /\
    DecryptedContribution.shapleyValue (decryptedContributions_at s1 X) = r0 /\
    DecryptedContribution.isRevealed (decryptedContributions_at s1 X) = true /\
    Acl.decryptContribution requestId cleartexts proof again =
      Acl.accumulate X r0 (encryptedContributionTotals_at s1 X)
        (Acl.record_revealed X r0 again) /\
    (forall value o3 sum o4,
       host_asEuint32 r0 o2 = Some (value, o3) ->
       host_add (encryptedContributionTotals_at s1 X) value o3 = Some (sum, o4) ->
       exists s2,
         Acl.decryptContribution requestId cleartexts proof again = Ok tt s2 /\
         encryptedContributionTotals_at s2 X = sum /\
         DecryptedContribution.shapleyValue (decryptedContributions_at s2 X) = r0 /\
         DecryptedContribution.isRevealed (decryptedContributions_at s2 X) = true /\
         requestToUpdateId s2 = requestToUpdateId s /\
         events s2 = events s ++ [ContributionDecrypted X; ContributionDecrypted X]) /\
    (forall value o3,
       host_asEuint32 r0 o2 = Some (value, o3) ->
       host_add (encryptedContributionTotals_at s1 X) value o3 = None ->
       Acl.transact [call_decryptContribution requestId cleartexts proof] again =
       (inr LibraryRefused, again)).
Proof.
  intros Hok X Hinit Hsig again.
  destruct (decryptContribution_host_Ok_inv _ _ _ _ _ Hok)
    as (r0 & rest & sum1 & HX & _ & Hdec & _ & _ & Htr & Hrec & Htot & Hev).
  fold X in HX, Hrec, Htot, Hev.
  assert (Hres : requestToUpdateId_at again requestId = X).
  { unfold requestToUpdateId_at, again; cbn. rewrite Htr. reflexivity. }
  assert (Hrec1 : decryptedContributions_at s1 X =
                  DecryptedContribution.mk
                    (DecryptedContribution.participantId (decryptedContributions_at s X)) r0 true).
  { unfold decryptedContributions_at at 1. rewrite Hrec, lookup_insert_eq. reflexivity. }
  assert (Hcall : Acl.decryptContribution requestId cleartexts proof again =
                  Acl.accumulate X r0 (encryptedContributionTotals_at s1 X)
                    (Acl.record_revealed X r0 again)).
  { rewrite (decryptContribution_host_stored_total _ _ _ _ r0 rest); rewrite ?Hres; auto. }
  exists r0, rest.
  split; [exact Hdec|]. split; [exact HX|]. split; [exact Hres|].
  split; [rewrite Hrec1; reflexivity|]. split; [rewrite Hrec1; reflexivity|].
  split; [exact Hcall|]. split.
  - intros value o3 sum o4 Hval Hsum. eexists. split.
    { rewrite Hcall. unfold Acl.accumulate; cbn. rewrite Hval, Hsum. reflexivity. }
    unfold encryptedContributionTotals_at, decryptedContributions_at; cbn.
    rewrite !lookup_insert_eq; cbn. rewrite Htr, Hev, <- app_assoc. repeat split.
  - intros value o3 Hval Hnone.
    eapply host_transact_decryptContribution_refused.
    rewrite Hcall. unfold Acl.accumulate; cbn. rewrite Hval, Hnone. reflexivity.
Qed.

(** C4, as the code has it.  The two lanes share one tracker: in a state the
    contract can be called in, the request identifier that
    [requestContributionTotalDecryption] obtains for [X] is resolved to [X]
    by the callback of the individual lane, which does not turn it down as a
    request of the other lane: with a proof the verifier accepts and
    cleartexts that decode to a non-empty array the call reaches the library.
    What it then does is decided by the library, on the stored total of [X]:
    if it performs [FHE.add], the call succeeds, the record of [X] is written
    as revealed with the first decoded element and that element is added into
    the total of [X]; if it refuses, the call reverts and the transaction
    leaves the state as it was. *)
Theorem total_request_is_resolved_by_decryptContribution
    (s : State) (X requestId : uint256) (o' o2 : OracleState)
    (cleartexts proof : bytes) (r0 : uint32) (rest : list uint32) :
  Acl.reachable s ->
  FHE_isInitialized 0 = false ->
  FHE_isInitialized (encryptedContributionTotals_at s X) = true ->
  FHE_requestDecryption [FHE_toBytes32 (encryptedContributionTotals_at s X)]
    decryptTotalContribution_selector (oracle s) = Some (requestId, o') ->
  FHE_checkSignatures requestId cleartexts proof o2 = true ->
  abi_decode_uint32_array cleartexts = Some (r0 :: rest) ->
  exists s1,
    requestContributionTotalDecryption X s = Ok tt s1 /\
    let callback := set_oracle o2 s1 in
    requestToUpdateId_at callback requestId = X /\
    X <> 0 /\
    Acl.decryptContribution requestId cleartexts proof callback =
      Acl.accumulate X r0 (encryptedContributionTotals_at s X)
        (Acl.record_revealed X r0 callback) /\
    (forall value o3 sum o4,
       host_asEuint32 r0 o2 = Some (value, o3) ->
       host_add (encryptedContributionTotals_at s X) value o3 = Some (sum, o4) ->
       exists s2,
         Acl.decryptContribution requestId cleartexts proof callback = Ok tt s2 /\
         DecryptedContribution.shapleyValue (decryptedContributions_at s2 X) = r0 /\
         DecryptedContribution.isRevealed (decryptedContributions_at s2 X) = true /\
         encryptedContributionTotals_at s2 X = sum /\
         events s2 = events s ++ [ContributionDecrypted X]) /\
    (forall value o3,
       host_asEuint32 r0 o2 = Some (value, o3) ->
       host_add (encryptedContributionTotals_at s X) value o3 = None ->
       Acl.transact [call_decryptContribution requestId cleartexts proof] callback =
       (inr LibraryRefused, callback)).
Proof.
  intros Hs Hzero Hinit Hreq Hsig Hdec.
  assert (HX : X <> 0).
  { intros ->. unfold encryptedContributionTotals_at in Hinit.
    rewrite (host_totals_zero_unwritten s Hs) in Hinit. cbn in Hinit. congruence. }
  eexists. split.
  { rewrite requestContributionTotalDecryption_unfold; cbn. rewrite Hinit, Hreq. reflexivity. }
  cbv zeta.
  match goal with |- requestToUpdateId_at ?st _ = _ /\ _ => set (callback := st) end.
  assert (Hres : requestToUpdateId_at callback requestId = X).
  { unfold requestToUpdateId_at, callback; cbn. rewrite lookup_insert_eq. reflexivity. }
  assert (Htot : encryptedContributionTotals_at callback X = encryptedContributionTotals_at s X)
    by reflexivity.
  assert (Hcall : Acl.decryptContribution requestId cleartexts proof callback =
                  Acl.accumulate X r0 (encryptedContributionTotals_at s X)
                    (Acl.record_revealed X r0 callback)).
  { rewrite (decryptContribution_host_stored_total _ _ _ _ r0 rest); rewrite ?Hres, ?Htot; auto. }
  split; [exact Hres|]. split; [exact HX|]. split; [exact Hcall|]. split.
  - intros value o3 sum o4 Hval Hsum. eexists. split.
    { rewrite Hcall. unfold Acl.accumulate; cbn. rewrite Hval, Hsum. reflexivity. }
    unfold encryptedContributionTotals_at, decryptedContributions_at; cbn.
    rewrite !lookup_insert_eq; cbn. repeat split.
  - intros value o3 Hval Hnone.
    eapply host_transact_decryptContribution_refused.
    rewrite Hcall. unfold Acl.accumulate; cbn. rewrite Hval, Hnone. reflexivity.
Qed.

End Permissions.

(** * The library facts and the host model on explicit inputs *)

Section ConcretePermissions.
Import AclLib.

Lemma AclLib_zero_handles_refused (sel : Selector) (o : storage) :
  FHE_requestDecryption [FHE_toBytes32 0; FHE_toBytes32 0] sel o = None.
Proof. reflexivity. Qed.

Lemma reachable_tracked : reachable tracked.
Proof.
  exists (mkStorage 0 100 [11; 12; 21; 22] []),
    [call_submitEncryptedUpdate 11 12 1000; call_requestUpdateDecryption 1].
  reflexivity.
Qed.



(** C3 fails as stated: the callback for request 0 is accepted in one
    transaction; the request still resolves to identifier 1 and the verifier
    still accepts the payload, but the same callback in the next transaction
    is refused in [FHE.add] and leaves the state as it was. *)
Lemma replay_refused_counterexample :
  Acl.transact [call_decryptContribution 0 [x1e] (TestLib.sign 0 [x1e])] pending
    = (inl [ret_nothing], revealed) /\
  requestToUpdateId_at revealed 0 = 1 /\
  FHE_checkSignatures 0 [x1e] (TestLib.sign 0 [x1e]) (oracle revealed) = true /\
  Acl.transact [call_decryptContribution 0 [x1e] (TestLib.sign 0 [x1e])] revealed
    = (inr LibraryRefused, revealed).
Proof. repeat apply conj; vm_compute; reflexivity. Qed.

Lemma replay_is_decided_by_the_library_witness :
  exists s2,
    Acl.decryptContribution 0 [x1e] (TestLib.sign 0 [x1e]) accepted_once = Ok tt s2 /\
    DecryptedContribution.shapleyValue (decryptedContributions_at s2 1) = 30 /\
    DecryptedContribution.isRevealed (decryptedContributions_at s2 1) = true /\
    events s2 = events pending ++ [ContributionDecrypted 1; ContributionDecrypted 1].
Proof.
  assert (Hfirst : Acl.decryptContribution 0 [x1e] (TestLib.sign 0 [x1e]) pending
                   = Ok tt accepted_once) by (vm_compute; reflexivity).
  destruct (replay_is_decided_by_the_library pending accepted_once 0 [x1e]
              (TestLib.sign 0 [x1e]) (oracle accepted_once) Hfirst)
    as (r0 & rest & Hdec & _ & _ & _ & _ & _ & Hadd & _);
    [vm_compute; reflexivity | vm_compute; reflexivity |].
  change (abi_decode_uint32_array [x1e]) with (Some [30]) in Hdec.
  injection Hdec as <- <-.
  destruct (Hadd 103 (mkStorage 1 104 [11; 12; 21; 22] [103; 102; 101; 100])
                 104 (mkStorage 1 105 [11; 12; 21; 22] [104; 103; 102; 101; 100]))
    as (s2 & Hok & _ & Hval & Hrev & _ & Hev);
    [vm_compute; reflexivity | vm_compute; reflexivity |].
  exists s2. split; [exact Hok|]. split; [exact Hval|]. split; [exact Hrev | exact Hev].
Defined.

(** C4 fails as stated: one transaction delivers the callback for request 0
    and requests the total of identifier 1, which yields request 1; the
    verifier accepts a payload for request 1, but the callback of the
    individual lane for it, in the next transaction, is refused in [FHE.add]
    and leaves the state as it was. *)
Lemma total_request_callback_refused_counterexample :
  Acl.transact [call_decryptContribution 0 [x1e] (TestLib.sign 0 [x1e]);
                call_requestContributionTotalDecryption 1] pending
    = (inl [ret_nothing; ret_nothing], revealed_and_total_requested) /\
  requestToUpdateId_at revealed_and_total_requested 1 = 1 /\
  FHE_checkSignatures 1 [x05] (TestLib.sign 1 [x05]) (oracle revealed_and_total_requested)
    = true /\
  abi_decode_uint32_array [x05] = Some [5] /\
  Acl.transact [call_decryptContribution 1 [x05] (TestLib.sign 1 [x05])]
      revealed_and_total_requested
    = (inr LibraryRefused, revealed_and_total_requested).
Proof. repeat apply conj; vm_compute; reflexivity. Qed.

Lemma total_request_is_resolved_by_decryptContribution_witness :
  exists s1 s2,
    requestContributionTotalDecryption 1 accepted_once = Ok tt s1 /\
    Acl.decryptContribution 1 [x05] (TestLib.sign 1 [x05]) s1 = Ok tt s2 /\
    DecryptedContribution.shapleyValue (decryptedContributions_at s2 1) = 5 /\
    DecryptedContribution.isRevealed (decryptedContributions_at s2 1) = true.
Proof.
  assert (Hreach : Acl.reachable accepted_once).
  { exists (mkStorage 0 100 [11; 12; 21; 22] []),
      [[call_submitEncryptedUpdate 11 12 1000]; [call_requestUpdateDecryption 1]],
      [call_decryptContribution 0 [x1e] (TestLib.sign 0 [x1e])], [ret_nothing].
    vm_compute. reflexivity. }
  destruct (total_request_is_resolved_by_decryptContribution (H := host) accepted_once 1 1
              (mkStorage 2 103 [11; 12; 21; 22] [102; 101; 100])
              (mkStorage 2 103 [11; 12; 21; 22] [102; 101; 100])
              [x05] (TestLib.sign 1 [x05]) 5 [] Hreach)
    as (s1 & Hreq & _ & _ & _ & Hadd & _);
    [vm_compute; reflexivity | vm_compute; reflexivity | vm_compute; reflexivity
    | vm_compute; reflexivity | vm_compute; reflexivity |].
  destruct (Hadd 103 (mkStorage 2 104 [11; 12; 21; 22] [103; 102; 101; 100])
                 104 (mkStorage 2 105 [11; 12; 21; 22] [104; 103; 102; 101; 100]))
    as (s2 & Hok & Hval & Hrev & _);
    [vm_compute; reflexivity | vm_compute; reflexivity |].
  exists s1, s2. split; [exact Hreq|]. split; [|split; [exact Hval | exact Hrev]].
  assert (Hs1 : requestContributionTotalDecryption 1 accepted_once =
                Ok tt (set_oracle (mkStorage 2 103 [11; 12; 21; 22] [102; 101; 100])
                         (set_requestToUpdateId 1 1 accepted_once)))
    by (vm_compute; reflexivity).
  rewrite Hs1 in Hreq. injection Hreq as <-. exact Hok.
Defined.

Lemma tracked_target_exists_witness :
  1 <= 1 <= updateCount tracked /\ update_exists tracked 1 /\ record_exists tracked 1.
Proof.
  apply (tracked_target_exists (Ext := lib) eq_refl AclLib_zero_handles_refused
           tracked 0 1 reachable_tracked).
  reflexivity.
Defined.

Lemma unsubmitted_request_is_refused_witness :
  requestUpdateDecryption 99 tracked = Revert RequestRejected tracked /\
  transact (call_requestUpdateDecryption 99) tracked = (inr RequestRejected, tracked).
Proof.
  apply (unsubmitted_request_is_refused (Ext := lib) eq_refl AclLib_zero_handles_refused
           tracked 99 reachable_tracked).
  change (updateCount tracked) with 1. lia.
Defined.

Lemma second_pending_request_is_granted_witness :
  requestToUpdateId_at
    (run [call_requestUpdateDecryption 1; call_requestUpdateDecryption 1]
       (run [call_submitEncryptedUpdate 11 12 1000] deployed)) 0 = 1 /\
  requestToUpdateId_at
    (run [call_requestUpdateDecryption 1; call_requestUpdateDecryption 1]
       (run [call_submitEncryptedUpdate 11 12 1000] deployed)) 1 = 1.
Proof.
  destruct (second_pending_request_is_granted (Ext := lib)
              (run [call_submitEncryptedUpdate 11 12 1000] deployed) 1 0 1
              (mkStorage 1 100 [11; 12; 21; 22] []) (mkStorage 2 100 [11; 12; 21; 22] [])
              eq_refl eq_refl eq_refl)
    as (_ & _ & H1 & H2 & _).
  - lia.
  - split; [exact H1 | exact H2].
Defined.

End ConcretePermissions.
